(** * A shallow embedding of the etchr core library (etchr-core)

    The development follows the Rust sources of [etchr-core]:
    - [platform/linux.rs]: [get_parent_device_path], [get_removable_devices];
    - [platform/windows.rs]: the Windows [get_removable_devices];
    - [platform.rs]: which [get_removable_devices] each target exports;
    - [read.rs]: [read::run], device to image file;
    - [write.rs]: [decompress_image] and [write::run], image file to device,
      with the optional verification pass;
    and, from the CLI [etchr], the [write] command of [main.rs] on Linux.

    Paths and strings are ASCII [string]s, bytes are [Byte.byte], u64
    quantities are [Z] with their ranges written out, the file system is a
    [gmap] from paths to nodes, and the I/O code runs in a small state and
    error monad that threads the file system, the number of times the
    cancellation flag has been polled and the trace of callbacks and device
    writes. *)

From Stdlib Require Import ZArith Lia Ascii String List QArith.
From Stdlib Require Import Strings.Byte Numbers.DecimalString Numbers.DecimalNat.
From stdpp Require Import base gmap strings list.

Import ListNotations.
Open Scope Z_scope.

(* ------------------------------------------------------------------ *)
(** ** Character and string helpers (ASCII subset of Rust's [str]) *)

Module Str.

(** [char::is_alphabetic], on the ASCII range. *)
Definition is_alphabetic (c : ascii) : bool :=
  let n := nat_of_ascii c in
  ((65 <=? n) && (n <=? 90))%nat || ((97 <=? n) && (n <=? 122))%nat.

(** [str::starts_with]. *)
Fixpoint starts_with (s p : string) : bool :=
  match p, s with
  | EmptyString, _ => true
  | String c p', String d s' => if ascii_dec c d then starts_with s' p' else false
  | String _ _, EmptyString => false
  end.

(** [str::find(char)]: byte index of the first occurrence. *)
Fixpoint find_char (c : ascii) (s : string) : option nat :=
  match s with
  | EmptyString => None
  | String d s' =>
      if ascii_dec c d then Some 0%nat
      else option_map S (find_char c s')
  end.

(** [str::rfind(pred)]: byte index of the last character satisfying [pred]. *)
Fixpoint rfind (pred : ascii -> bool) (s : string) : option nat :=
  match s with
  | EmptyString => None
  | String d s' =>
      match rfind pred s' with
      | Some i => Some (S i)
      | None => if pred d then Some 0%nat else None
      end
  end.

(** [&s[..i]]. *)
Definition take (i : nat) (s : string) : string := substring 0 i s.

(** Every character of [s] satisfies [f]. *)
Fixpoint all_chars (f : ascii -> bool) (s : string) : bool :=
  match s with
  | EmptyString => true
  | String c s' => f c && all_chars f s'
  end.

(** ASCII lower-casing, as [str::to_lowercase] on the ASCII range. *)
Definition lower_char (c : ascii) : ascii :=
  let n := nat_of_ascii c in
  if ((65 <=? n) && (n <=? 90))%nat then ascii_of_nat (n + 32) else c.

Fixpoint to_lowercase (s : string) : string :=
  match s with
  | EmptyString => EmptyString
  | String c s' => String (lower_char c) (to_lowercase s')
  end.

(** Splitting on ['/'], keeping empty pieces. *)
Fixpoint split_slash (s : string) : list string :=
  match s with
  | EmptyString => [EmptyString]
  | String c s' =>
      if ascii_dec c "/"%char then EmptyString :: split_slash s'
      else match split_slash s' with
           | h :: t => String c h :: t
           | [] => [String c EmptyString]
           end
  end.

(** [char::is_whitespace], on the ASCII range: tab, line feed, vertical
    tab, form feed, carriage return and space. *)
Definition is_whitespace (c : ascii) : bool :=
  let n := nat_of_ascii c in
  ((9 <=? n) && (n <=? 13))%nat || (n =? 32)%nat.

Fixpoint trim_start (s : string) : string :=
  match s with
  | EmptyString => EmptyString
  | String c s' => if is_whitespace c then trim_start s' else s
  end.

Fixpoint trim_end (s : string) : string :=
  match s with
  | EmptyString => EmptyString
  | String c s' =>
      let t := trim_end s' in
      if String.eqb t "" && is_whitespace c then EmptyString else String c t
  end.

(** [str::trim]. *)
Definition trim (s : string) : string := trim_end (trim_start s).

(** The last character of a string. *)
Fixpoint last_char (s : string) : option ascii :=
  match s with
  | EmptyString => None
  | String c EmptyString => Some c
  | String _ s' => last_char s'
  end.

(** The decimal digits of [s] read onto [acc]; [None] at a non-digit. *)
Fixpoint digits_value (acc : Z) (s : string) : option Z :=
  match s with
  | EmptyString => Some acc
  | String c s' =>
      let n := Z.of_nat (nat_of_ascii c) in
      if (48 <=? n) && (n <=? 57) then digits_value (acc * 10 + (n - 48)) s' else None
  end.

(** [str::parse::<u64>]: an optional ['+'], then at least one decimal
    digit and nothing else, the value at most [u64::MAX]. *)
Definition parse_u64 (s : string) : option Z :=
  let digits :=
    match s with
    | EmptyString => None
    | String c r =>
        if ascii_dec c "+"%char then
          match r with EmptyString => None | _ => Some r end
        else Some s
    end in
  match digits with
  | None => None
  | Some d =>
      match digits_value 0 d with
      | Some v => if v <=? 2 ^ 64 - 1 then Some v else None
      | None => None
      end
  end.

End Str.

(* ------------------------------------------------------------------ *)
(** ** The world: files, block devices, callbacks, the cancellation flag *)

Module IO.

(** A node of the file system: a regular file (image files, temporary
    files) or a block device.  Both hold their bytes; a block device has a
    fixed capacity, the length of its contents. *)
Inductive node :=
  | RegFile (data : list byte)
  | BlockDev (data : list byte).

Definition node_data (n : node) : list byte :=
  match n with RegFile d | BlockDev d => d end.

(** Observable effects: the progress and lifecycle callbacks of the two
    pipelines, and every [write_all] on an [O_DIRECT] device descriptor. *)
Inductive event :=
  | EvReadStart (total : Z)
  | EvReadProgress (done : Z)
  | EvDecompressStart
  | EvDecompressProgress (done : Z)
  | EvWriteStart (total : Z)
  | EvWriteProgress (done : Z)
  | EvVerifyStart (total : Z)
  | EvVerifyProgress (done : Z)
  | EvDeviceWrite (path : string) (offset : Z) (bytes : list byte).

(** [st_running n] is the value of the shared [Arc<AtomicBool>] seen by the
    [n]-th [running.load(Ordering::SeqCst)] of the operation; [st_polls]
    counts the loads made so far. *)
Record state := mkState {
  st_fs : gmap string node;
  st_running : nat -> bool;
  st_polls : nat;
  st_trace : list event
}.

(** The [std::io::ErrorKind]s the modelled system calls can produce. *)
Inductive io_kind :=
  | NotFound          (* ENOENT *)
  | UnexpectedEof     (* [read_exact] past the end *)
  | StorageFull       (* ENOSPC: write past the end of a block device *)
  | NotTty            (* ENOTTY: [BLKGETSIZE64] on a regular file *)
  | Interrupted       (* the cancellation error of [decompress_image] *)
  | InvalidData.      (* a corrupt compressed stream *)

(** The [anyhow::Error]s returned by [read::run] and [write::run]:
    [ECancelled] is [anyhow!("Operation cancelled by user")], [EZeroSize]
    is [anyhow!("Device size is reported as zero")], [EMismatch] is
    [anyhow!("Verification failed: hash mismatch.")], and [EIo k] an
    [io::Error] of kind [k] propagated by [?]. *)
Inductive error :=
  | EIo (k : io_kind)
  | ECancelled
  | EZeroSize
  | EMismatch.

Inductive res (E A : Type) :=
  | Ok (a : A)
  | Err (e : E).
Arguments Ok {E A} a.
Arguments Err {E A} e.

(** The state and error monad the I/O code runs in. *)
Definition M (E A : Type) := state -> res E A * state.

Definition ret {E A} (a : A) : M E A := fun st => (Ok a, st).
Definition fail {E A} (e : E) : M E A := fun st => (Err e, st).
Definition bind {E A B} (m : M E A) (k : A -> M E B) : M E B :=
  fun st => match m st with
            | (Ok a, st') => k a st'
            | (Err e, st') => (Err e, st')
            end.

Notation "'let*' x ':=' m 'in' k" := (bind m (fun x => k))
  (at level 200, x binder, m at level 100, right associativity).

(** Error conversion by [?]: [io::Error] into [anyhow::Error]. *)
Definition io {A} (m : M io_kind A) : M error A :=
  fun st => match m st with
            | (Ok a, st') => (Ok a, st')
            | (Err k, st') => (Err (EIo k), st')
            end.

(** [running.load(Ordering::SeqCst)]. *)
Definition poll {E} : M E bool :=
  fun st => (Ok (st_running st (st_polls st)),
             mkState (st_fs st) (st_running st) (S (st_polls st)) (st_trace st)).

(** A callback invocation or device write, appended to the trace. *)
Definition emit {E} (e : event) : M E unit :=
  fun st => (Ok tt, mkState (st_fs st) (st_running st) (st_polls st) (st_trace st ++ [e])).

Definition set_fs {E} (fs : gmap string node) : M E unit :=
  fun st => (Ok tt, mkState fs (st_running st) (st_polls st) (st_trace st)).

Definition get_fs {E} : M E (gmap string node) := fun st => (Ok (st_fs st), st).

Definition zlen {A} (l : list A) : Z := Z.of_nat (length l).

(** [File::open] / [OpenOptions::open] without [create]: the path must exist. *)
Definition open_existing (p : string) : M io_kind unit :=
  let* fs := get_fs in
  match fs !! p with Some _ => ret tt | None => fail NotFound end.

(** [read_exact] of [n] bytes at offset [pos]. *)
Definition read_exact (p : string) (pos n : Z) : M io_kind (list byte) :=
  let* fs := get_fs in
  match fs !! p with
  | None => fail NotFound
  | Some nd =>
      let d := node_data nd in
      if pos + n <=? zlen d
      then ret (firstn (Z.to_nat n) (skipn (Z.to_nat pos) d))
      else fail UnexpectedEof
  end.

(** The bytes of [d] after writing [bs] at offset [pos]: a regular file
    grows (a hole reads as zeros), a block device is overwritten in place. *)
Definition overwrite (d : list byte) (pos : nat) (bs : list byte) : list byte :=
  firstn pos d ++ repeat x00 (pos - length d) ++ bs ++ skipn (pos + length bs) d.

(** [write_all] of [bs] at offset [pos]. *)
Definition write_all (p : string) (pos : Z) (bs : list byte) : M io_kind unit :=
  let* fs := get_fs in
  match fs !! p with
  | None => fail NotFound
  | Some (RegFile d) => set_fs (<[p := RegFile (overwrite d (Z.to_nat pos) bs)]> fs)
  | Some (BlockDev d) =>
      if pos + zlen bs <=? zlen d
      then set_fs (<[p := BlockDev (overwrite d (Z.to_nat pos) bs)]> fs)
      else fail StorageFull
  end.

(** [File::create]: truncates or creates a regular file; opening a block
    device node this way leaves it as it is.  The file system here has no
    directories, so the [NotFound] of a missing parent directory is not
    represented: results about [read::run] that use [create] either assume
    nothing about its success or are read as holding when it succeeds. *)
Definition create (p : string) : M io_kind unit :=
  let* fs := get_fs in
  match fs !! p with
  | Some (BlockDev _) => ret tt
  | _ => set_fs (<[p := RegFile []]> fs)
  end.

(** [std::fs::remove_file]. *)
Definition remove_file (p : string) : M io_kind unit :=
  let* fs := get_fs in
  match fs !! p with
  | Some _ => set_fs (delete p fs)
  | None => fail NotFound
  end.

(** The [BLKGETSIZE64] ioctl. *)
Definition blkgetsize64 (p : string) : M io_kind Z :=
  let* fs := get_fs in
  match fs !! p with
  | Some (BlockDev d) => ret (zlen d)
  | Some (RegFile _) => fail NotTty
  | None => fail NotFound
  end.

(** [file.metadata()?.len()]: [st_size], which is 0 for a block device. *)
Definition metadata_len (p : string) : M io_kind Z :=
  let* fs := get_fs in
  match fs !! p with
  | Some (RegFile d) => ret (zlen d)
  | Some (BlockDev _) => ret 0
  | None => fail NotFound
  end.

(** [BUFFER_SIZE] of [read.rs] and [write.rs]: 1 MiB. *)
Definition BUFFER_SIZE : Z := 1024 * 1024.

(** Iterations of a [while done < total] loop advancing by at most
    [BUFFER_SIZE]: the fuel of the loops below. *)
Definition nchunks (total : Z) : nat := Z.to_nat ((total + BUFFER_SIZE - 1) / BUFFER_SIZE).

End IO.

(* ------------------------------------------------------------------ *)
(** ** [device.rs] and the error type of the platform layer *)

Module Device.

(** [Device]; [size_gb] is the exact quotient that the [f64] rounds. *)
Record device := mkDevice {
  path : string;
  name : string;
  size_gb : Q;
  mount_point : string
}.

(** The [anyhow::Error]s of [platform/linux.rs]: a message, or a
    converted [io::Error]. *)
Inductive anyhow_error :=
  | AnyMsg (msg : string)
  | AnyIo (k : IO.io_kind).

End Device.

(* ------------------------------------------------------------------ *)
(** ** [platform/linux.rs]: [get_parent_device_path] and [get_removable_devices] *)

Module Linux.
Import IO Device.

(** [get_parent_device_path]: [/dev/sdXN -> /dev/sdX] (cut after the last
    alphabetic character), [/dev/mmcblkNpM] and [/dev/nvmeNnMpK] cut before
    the first ['p']; any other path is returned unchanged. *)
Definition get_parent_device_path (path_str : string) : string :=
  if Str.starts_with path_str "/dev/sd" then
    match Str.rfind Str.is_alphabetic path_str with
    | Some index => Str.take (S index) path_str
    | None => path_str
    end
  else if Str.starts_with path_str "/dev/mmcblk" || Str.starts_with path_str "/dev/nvme" then
    match Str.find_char "p"%char path_str with
    | Some index => Str.take index path_str
    | None => path_str
    end
  else path_str.

(** No character of [x] is a ['p']. *)
Definition no_p (x : string) : bool :=
  Str.all_chars (fun d => if ascii_dec "p"%char d then false else true) x.

(** [Path::components] on Unix, which [PathBuf]'s [==] compares: whether
    the path has a root, a ["."] that starts a relative path, then the
    components other than empty ones and ["."]. *)
Definition components (p : string) : bool * list string :=
  let normal := filter (fun c => negb (String.eqb c "" || String.eqb c "."))
                       (Str.split_slash p) in
  match p with
  | String c r =>
      if ascii_dec c "/"%char then (true, normal)
      else if ascii_dec c "."%char then
        match r with
        | EmptyString => (false, ["."])
        | String d _ => if ascii_dec d "/"%char then (false, "." :: normal) else (false, normal)
        end
      else (false, normal)
  | EmptyString => (false, normal)
  end.

(** [==] on [Path]s. *)
Definition path_eq (p q : string) : bool := bool_decide (components p = components q).

(** [PathBuf::from(base).join(name)] on Unix: an absolute [name] replaces
    [base]; otherwise a ['/'] is added when [base] does not end with one. *)
Definition join (base name : string) : string :=
  match name with
  | String c _ => if ascii_dec c "/"%char then name
                  else match Str.last_char base with
                       | Some d => if ascii_dec d "/"%char then base +:+ name else base +:+ "/" +:+ name
                       | None => name
                       end
  | EmptyString => match Str.last_char base with
                   | Some d => if ascii_dec d "/"%char then base else base +:+ "/"
                   | None => base
                   end
  end.

(** A [sysinfo::Disk]: its name and its mount point, both already through
    [to_string_lossy]. *)
Record disk := mkDisk {
  disk_name : string;
  disk_mount_point : string
}.

(** What the enumerator reads under [/sys/block]: the entries of
    [fs::read_dir("/sys/block")] (each one may fail on its own) and the
    contents [fs::read_to_string] gives for [/sys/block/<name>/<file>]. *)
Record sysfs := mkSysfs {
  sys_block_entries : res io_kind (list (res io_kind string));
  sys_file : string -> string -> res io_kind string
}.

(** [read_sys_file]. *)
Definition read_sys_file (sys : sysfs) (device_name file : string) : res io_kind string :=
  match sys_file sys device_name file with
  | Ok s => Ok (Str.trim s)
  | Err k => Err k
  end.

(** The first loop of [get_removable_devices]: the parent of the first disk
    mounted at ["/"]. *)
Fixpoint find_system_disk_parent (disks : list disk) : option string :=
  match disks with
  | [] => None
  | d :: ds =>
      if path_eq (disk_mount_point d) "/" then
        Some (get_parent_device_path (join "/dev/" (disk_name d)))
      else find_system_disk_parent ds
  end.

(** The mount-point loop: the first disk whose name starts with
    [device_name] and whose mount point is not empty; [""] otherwise. *)
Fixpoint find_mount_point (disks : list disk) (device_name : string) : string :=
  match disks with
  | [] => ""
  | d :: ds =>
      if Str.starts_with (disk_name d) device_name then
        let mp := disk_mount_point d in
        if negb (String.eqb mp "") then mp else find_mount_point ds device_name
      else find_mount_point ds device_name
  end.

(** [read_sys_file(&device_name, "removable").map(|s| s == "1").unwrap_or(false)]. *)
Definition is_removable (sys : sysfs) (device_name : string) : bool :=
  match read_sys_file sys device_name "removable" with
  | Ok s => String.eqb s "1"
  | Err _ => false
  end.

(** [size_sectors]: the parsed [size] file, [0] when it cannot be read or
    parsed. *)
Definition size_sectors (sys : sysfs) (device_name : string) : Z :=
  match read_sys_file sys device_name "size" with
  | Ok s => match Str.parse_u64 s with Some v => v | None => 0 end
  | Err _ => 0
  end.

(** [(size_sectors * 512) as f64 / (1024.0 * 1024.0 * 1024.0)], with the
    u64 product wrapping as in a release build; the quotient is exact here,
    the [f64] one has the same sign and is zero exactly when this one is. *)
Definition size_gb_of (size : Z) : Q :=
  (inject_Z ((size * 512) mod 2 ^ 64) / inject_Z (1024 * 1024 * 1024))%Q.

(** The body of the [/sys/block] loop for the entry [device_name]:
    [None] is [continue], [Some d] is [devices.push(d)]. *)
Definition probe (sys : sysfs) (disks : list disk) (system_disk_parent device_name : string)
    : option device :=
  let device_path := join "/dev/" device_name in
  if Str.starts_with device_name "loop" || path_eq device_path system_disk_parent then None
  else if negb (is_removable sys device_name) then None
  else
    let size := size_sectors sys device_name in
    if size =? 0 then None
    else
      let size_gb := size_gb_of size in
      let mount_point := find_mount_point disks device_name in
      Some (mkDevice device_path device_name size_gb mount_point).

(** [block_dir.filter_map(Result::ok)] and the loop over it. *)
Fixpoint scan (sys : sysfs) (disks : list disk) (system_disk_parent : string)
    (entries : list (res io_kind string)) : list device :=
  match entries with
  | [] => []
  | Err _ :: es => scan sys disks system_disk_parent es
  | Ok name :: es =>
      match probe sys disks system_disk_parent name with
      | Some d => d :: scan sys disks system_disk_parent es
      | None => scan sys disks system_disk_parent es
      end
  end.

(** [get_removable_devices], given the refreshed [sysinfo] disk list. *)
Definition get_removable_devices (sys : sysfs) (disks : list disk) : res anyhow_error (list device) :=
  match find_system_disk_parent disks with
  | None => Err (AnyMsg "Could not determine system drive.")
  | Some system_disk_parent =>
      match sys_block_entries sys with
      | Err k => Err (AnyIo k)
      | Ok entries => Ok (scan sys disks system_disk_parent entries)
      end
  end.

End Linux.

(* ------------------------------------------------------------------ *)
(** ** [platform/windows.rs] *)

Module Windows.
Import IO Device.

(** How a call of a Rust function ends: it returns a value, or it panics. *)
Inductive outcome (A : Type) :=
  | Returned (a : A)
  | Panicked (msg : string).
Arguments Returned {A} a.
Arguments Panicked {A} msg.

(** [get_removable_devices]: its body is
    [unimplemented!("Windows support is not yet implemented.")]. *)
Definition get_removable_devices : outcome (res anyhow_error (list device)) :=
  Panicked "not implemented: Windows support is not yet implemented.".

End Windows.

(* ------------------------------------------------------------------ *)
(** ** [platform.rs]: the per-target re-export *)

Module Platform.
Import IO Device.

(** The targets [platform.rs] tells apart with [#[cfg(target_os = ...)]]. *)
Inductive target_os := TargetLinux | TargetWindows | TargetOther.

(** [platform::get_removable_devices] on each target: [pub use
    self::linux::*] on Linux (the function reads [/sys/block] and the
    [sysinfo] disk list), [pub use self::windows::*] on Windows, and no
    function at all ([None]) on any other target. *)
Definition get_removable_devices (t : target_os)
    : option (Linux.sysfs -> list Linux.disk -> Windows.outcome (res anyhow_error (list device))) :=
  match t with
  | TargetLinux => Some (fun sys disks => Windows.Returned (Linux.get_removable_devices sys disks))
  | TargetWindows => Some (fun _ _ => Windows.get_removable_devices)
  | TargetOther => None
  end.

End Platform.

(* ------------------------------------------------------------------ *)
(** ** [read.rs]: [read::run] *)

Module Read.
Import IO.

(** The copy loop, [while read_total < size_bytes { ... }]. *)
Fixpoint read_loop (fuel : nat) (device_path image_path : string)
    (size_bytes read_total : Z) : M error unit :=
  if read_total <? size_bytes then
    match fuel with
    | O => ret tt
    | S fuel' =>
        let* r := poll in
        if negb r then
          let* _ := io (remove_file image_path) in
          fail ECancelled
        else
          let to_read := Z.min BUFFER_SIZE (size_bytes - read_total) in
          let* buffer := io (read_exact device_path read_total to_read) in
          let* _ := io (write_all image_path read_total buffer) in
          let read_total := read_total + to_read in
          let* _ := emit (EvReadProgress read_total) in
          read_loop fuel' device_path image_path size_bytes read_total
    end
  else ret tt.

(** [read::run]: open the device, query its size, create the image file,
    copy, flush (a no-op for [std::fs::File]). *)
Definition run (device_path image_path : string) : M error unit :=
  let* _ := io (open_existing device_path) in
  let* size_bytes := io (blkgetsize64 device_path) in
  if size_bytes =? 0 then fail EZeroSize
  else
    let* _ := emit (EvReadStart size_bytes) in
    let* _ := io (create image_path) in
    read_loop (nchunks size_bytes) device_path image_path size_bytes 0.

End Read.

(* ------------------------------------------------------------------ *)
(** ** [write.rs]: [decompress_image] and [write::run] *)

Module Write.
Import IO.

#[global] Instance byte_eq_decision : EqDecision byte := Byte.byte_eq_dec.

(** The three decoders of [decompress_image]. *)
Inductive codec := Gzip | Xz | Zstd.

(** [DecompressedImage]: the path to read the plain image from, and the
    [TempPath] it owns when it was decompressed to a temporary file. *)
Record decompressed_image := mkImage {
  di_path : string;
  di_temp_handle : option string
}.

(** [Path::file_name]: the last component, unless it is [".."]. *)
Definition file_name (p : string) : option string :=
  let comps := filter (fun c => negb (String.eqb c "" || String.eqb c ".")) (Str.split_slash p) in
  match last comps with
  | Some c => if String.eqb c ".." then None else Some c
  | None => None
  end.

Definition is_dot (c : ascii) : bool := if ascii_dec c "."%char then true else false.

(** [Path::extension]: the part of the file name after its last ['.'];
    none when there is no ['.'] or the only one starts the name. *)
Definition extension (p : string) : option string :=
  match file_name p with
  | None => None
  | Some name =>
      match Str.rfind is_dot name with
      | None => None
      | Some O => None
      | Some (S i) => Some (substring (S (S i)) (String.length name - S (S i)) name)
      end
  end.

(** [input_path.extension().and_then(|e| e.to_str()).unwrap_or("").to_lowercase()]. *)
Definition ext_of (input_path : string) : string :=
  Str.to_lowercase (match extension input_path with Some e => e | None => "" end).

(** The [match ext.as_str()] of [decompress_image]. *)
Definition select_codec (ext : string) : option codec :=
  if String.eqb ext "gz" || String.eqb ext "gzip" then Some Gzip
  else if String.eqb ext "xz" then Some Xz
  else if String.eqb ext "zst" || String.eqb ext "zstd" then Some Zstd
  else None.

(** The copy buffer of [decompress_image]: 8 KiB. *)
Definition DECOMPRESS_BUFFER : Z := 8192.

(** The whole contents of a file, as a streaming decoder consumes it. *)
Definition read_all (p : string) : M io_kind (list byte) :=
  let* fs := get_fs in
  match fs !! p with
  | Some nd => ret (node_data nd)
  | None => fail NotFound
  end.

(** [NamedTempFile::new()]: a fresh ["/tmp/.tmpN"], created empty. *)
Fixpoint fresh_temp_from (fs : gmap string node) (fuel n : nat) : string :=
  let p := ("/tmp/.tmp" +:+ NilEmpty.string_of_uint (Nat.to_uint n))%string in
  match fuel with
  | O => p
  | S fuel' => match fs !! p with None => p | Some _ => fresh_temp_from fs fuel' (S n) end
  end.

Definition named_temp_file_new : M io_kind string :=
  let* fs := get_fs in
  let p := fresh_temp_from fs (S (size fs)) 0 in
  let* _ := set_fs (<[p := RegFile []]> fs) in
  ret p.

(** Dropping a [TempPath]: the file is removed, errors ignored. *)
Definition drop_temp {E} (p : string) : M E unit :=
  let* fs := get_fs in set_fs (delete p fs).

Definition drop_image {E} (img : decompressed_image) : M E unit :=
  match di_temp_handle img with
  | Some p => drop_temp p
  | None => ret tt
  end.

(** Run [m]; on an early return the temporary file [p] is dropped. *)
Definition guard_temp {E A} (p : string) (m : M E A) : M E A :=
  fun st => match m st with
            | (Ok a, st') => (Ok a, st')
            | (Err e, st') => (Err e, snd (drop_temp (E := E) p st'))
            end.

Section WithLibraries.

(** The SHA-256 digest of the concatenation of the chunks fed to
    [Sha256::update], as returned by [finalize]. *)
Variable digest : list byte -> list byte.

(** A streaming decoder run to its end on the compressed bytes: the bytes
    it yields, and the error its last [read] returns, if any. *)
Variable decode : codec -> list byte -> list byte * option io_kind.

(** The copy loop of [decompress_image]: [reader.read] yields at most 8 KiB
    of the decoded stream per call, [0] at its end. *)
Fixpoint decompress_loop (fuel : nat) (tmp : string) (out : list byte)
    (err : option io_kind) (total : Z) : M io_kind unit :=
  match fuel with
  | O => ret tt
  | S fuel' =>
      let* r := poll in
      if negb r then fail Interrupted
      else
        match out with
        | [] => match err with Some k => fail k | None => ret tt end
        | _ =>
            let n := Z.min DECOMPRESS_BUFFER (zlen out) in
            let chunk := firstn (Z.to_nat n) out in
            let* _ := write_all tmp total chunk in
            let total := total + n in
            let* _ := emit (EvDecompressProgress total) in
            decompress_loop fuel' tmp (skipn (Z.to_nat n) out) err total
        end
  end.

(** [decompress_image]. *)
Definition decompress_image (input_path : string) : M io_kind decompressed_image :=
  let ext := ext_of input_path in
  let* _ := open_existing input_path in
  match select_codec ext with
  | None => ret (mkImage input_path None)
  | Some c =>
      let* input := read_all input_path in
      let '(out, err) := decode c input in
      let* temp_path := named_temp_file_new in
      let* _ := guard_temp temp_path
        (decompress_loop (S (Z.to_nat ((zlen out + DECOMPRESS_BUFFER - 1) / DECOMPRESS_BUFFER)))
           temp_path out err 0) in
      ret (mkImage temp_path (Some temp_path))
  end.

(** [padded_size] of the write loop: [to_read] rounded up to a multiple of
    the 512-byte block size. *)
Definition block_size : Z := 512.

Definition padded_size (to_read : Z) : Z :=
  if negb (to_read mod block_size =? 0)
  then (to_read + block_size - 1) / block_size * block_size
  else to_read.

(** The write loop, [while written < image_len { ... }]; [pos] is the
    offset of the [O_DIRECT] device descriptor. *)
Fixpoint write_loop (fuel : nat) (image device_path : string)
    (image_len written pos : Z) : M error unit :=
  if written <? image_len then
    match fuel with
    | O => ret tt
    | S fuel' =>
        let* r := poll in
        if negb r then fail ECancelled
        else
          let to_read := Z.min BUFFER_SIZE (image_len - written) in
          let* buffer := io (read_exact image written to_read) in
          let pad := padded_size to_read in
          let out := buffer ++ repeat x00 (Z.to_nat (pad - to_read)) in
          let* _ := io (write_all device_path pos out) in
          let* _ := emit (EvDeviceWrite device_path pos out) in
          let written := written + to_read in
          let* _ := emit (EvWriteProgress written) in
          write_loop fuel' image device_path image_len written (pos + pad)
    end
  else ret tt.

Definition write_stage (image device_path : string) (image_len : Z) : M error unit :=
  write_loop (nchunks image_len) image device_path image_len 0 0.

(** The verification loop, [while remaining > 0 { ... }]; it returns the
    bytes fed to the image and device hashers. *)
Fixpoint verify_loop (fuel : nat) (image device_path : string)
    (image_len remaining : Z) (image_fed device_fed : list byte)
    : M error (list byte * list byte) :=
  if 0 <? remaining then
    match fuel with
    | O => ret (image_fed, device_fed)
    | S fuel' =>
        let* r := poll in
        if negb r then fail ECancelled
        else
          let chunk := Z.min BUFFER_SIZE remaining in
          let* image_buf := io (read_exact image (image_len - remaining) chunk) in
          let* device_buf := io (read_exact device_path (image_len - remaining) chunk) in
          let remaining := remaining - chunk in
          let* _ := emit (EvVerifyProgress (image_len - remaining)) in
          verify_loop fuel' image device_path image_len remaining
            (image_fed ++ image_buf) (device_fed ++ device_buf)
    end
  else ret (image_fed, device_fed).

(** The [if verify { ... }] block. *)
Definition verify_stage (image device_path : string) (image_len : Z) : M error unit :=
  let* _ := io (open_existing image) in
  let* _ := io (open_existing device_path) in
  let* _ := emit (EvVerifyStart image_len) in
  let* fed := verify_loop (nchunks image_len) image device_path image_len image_len [] [] in
  let hash1 := digest (fst fed) in
  let hash2 := digest (snd fed) in
  if bool_decide (hash1 = hash2) then ret tt else fail EMismatch.

(** Everything after decompression; the [DecompressedImage] is dropped
    when [run] returns, whatever it returns. *)
Definition write_and_verify (image : decompressed_image) (device_path : string)
    (verify : bool) : M error unit :=
  let* _ := io (open_existing (di_path image)) in
  let* image_len := io (metadata_len (di_path image)) in
  let* _ := io (open_existing device_path) in
  let* _ := emit (EvWriteStart image_len) in
  let* _ := write_stage (di_path image) device_path image_len in
  if verify then verify_stage (di_path image) device_path image_len else ret tt.

(** [write::run]. *)
Definition run (image_path device_path : string) (verify : bool) : M error unit :=
  let* _ := emit EvDecompressStart in
  fun st =>
    match decompress_image image_path st with
    | (Err Interrupted, st') => (Err ECancelled, st')
    | (Err k, st') => (Err (EIo k), st')
    | (Ok image, st') =>
        let '(r, st'') := write_and_verify image device_path verify st' in
        (r, snd (drop_image (E := error) image st''))
    end.

End WithLibraries.

(** The trace a run of the write loop leaves, chunk by chunk: each
    [write_all] on the device writes the [d] genuine bytes of the chunk
    followed by the zero padding, and is followed by the progress callback
    with the running count of genuine bytes. *)
Inductive write_trace (dev : string) (image_len : Z) : Z -> Z -> list event -> Prop :=
  | wt_nil written pos : write_trace dev image_len written pos []
  | wt_step written pos n d rest :
      written < image_len ->
      n = written + Z.min BUFFER_SIZE (image_len - written) ->
      zlen d = n - written ->
      write_trace dev image_len n (pos + padded_size (n - written)) rest ->
      write_trace dev image_len written pos
        (EvDeviceWrite dev pos (d ++ repeat x00 (Z.to_nat (padded_size (n - written) - (n - written))))
         :: EvWriteProgress n :: rest).

End Write.

(* ------------------------------------------------------------------ *)
(** ** [main.rs]: the [write] command of the CLI, on Linux *)

Module Main.
Import IO Device Linux.

(** How [main] ends other than with [Ok(())]: an [anyhow] error from the
    enumerator or from a prompt, the error of a pipeline, or a panic. *)
Inductive main_error :=
  | MainAny (e : anyhow_error)
  | MainPipe (e : error)
  | MainPanic (msg : string).

(** What the two [dialoguer] prompts return: the index [Select::interact]
    gives and the answer [Confirm::interact] gives; each may fail. *)
Record answers := mkAnswers {
  ans_select : res anyhow_error nat;
  ans_confirm : res anyhow_error bool
}.

(** The [?] operator on an [anyhow::Result]. *)
Definition lift_any {A} (r : res anyhow_error A) : M main_error A :=
  match r with
  | Ok a => ret a
  | Err e => fail (MainAny e)
  end.

(** The [?] operator on the result of a pipeline. *)
Definition lift_pipe {A} (m : M error A) : M main_error A :=
  fun st => match m st with
            | (Ok a, st') => (Ok a, st')
            | (Err e, st') => (Err (MainPipe e), st')
            end.

(** [select_device]: an error for an empty list, otherwise the device at
    the index the menu returns ([devices[selection]] panics out of
    range). *)
Definition select_device (devices : list device) (selection : res anyhow_error nat)
    : M main_error device :=
  match devices with
  | [] => fail (MainAny (AnyMsg "No removable devices found."))
  | _ =>
      match selection with
      | Err e => fail (MainAny e)
      | Ok i =>
          match nth_error devices i with
          | Some d => ret d
          | None => fail (MainPanic "index out of bounds")
          end
      end
  end.

(** [is_compressed] of the [Commands::Write] branch: whether the
    extension, lowercased, is one of ["gz"], ["gzip"], ["xz"], ["zst"],
    ["zstd"]. *)
Definition is_compressed (image : string) : bool :=
  match Write.extension image with
  | Some e =>
      let l := Str.to_lowercase e in
      String.eqb l "gz" || String.eqb l "gzip" || String.eqb l "xz"
      || String.eqb l "zst" || String.eqb l "zstd"
  | None => false
  end.

(** The [Commands::Write] branch of [main], the progress bars and the
    printing left out. *)
Definition write_command (digest : list byte -> list byte)
    (decode : Write.codec -> list byte -> list byte * option io_kind)
    (sys : sysfs) (disks : list disk) (image : string) (no_verify : bool) (ans : answers)
    : M main_error unit :=
  let* devices := lift_any (get_removable_devices sys disks) in
  let* device := select_device devices (ans_select ans) in
  let* confirmed := lift_any (ans_confirm ans) in
  if negb confirmed then ret tt
  else lift_pipe (Write.run digest decode image (path device) (negb no_verify)).

End Main.

(* ------------------------------------------------------------------ *)
(** ** Concrete machines used by the examples below *)

Module Examples.
Import IO Device Linux Write.

(** Two block devices [sda] (fixed) and [sdb] (removable, 2048 sectors);
    the root file system is on [/dev/sda2]; [sdb] has two partitions, the
    first one not mounted. *)
Definition ex_sys : sysfs :=
  mkSysfs (Ok [Ok "sda"; Ok "sdb"])
    (fun n f => if String.eqb f "removable" then
                  (if String.eqb n "sda" then Ok "0" else Ok "1")
                else Ok "2048").

Definition ex_disks : list disk :=
  [mkDisk "/dev/sda2" "/"; mkDisk "sdb1" ""; mkDisk "sdb2" "/media/usb"].

(** A machine with the given files whose cancellation flag reads [flag]
    at every poll. *)
Definition ex_state (fs : gmap string node) (flag : bool) : state :=
  mkState fs (fun _ => flag) 0 [].

(** The identity stands for a decoder and for a digest. *)
Definition ex_decode (c : codec) (b : list byte) : list byte * option io_kind := (b, None).

(** A 10 MiB drive (ten chunks) whose flag reads [true] at the first three
    polls and [false] from the fourth on. *)
Definition ex_cancel_read_state : state :=
  mkState (<["/dev/sdb" := BlockDev (repeat x00 (Z.to_nat (10 * BUFFER_SIZE)))]> ∅)
          (fun i => Nat.ltb i 3) 0 [].

(** A drive that reports a capacity of zero. *)
Definition ex_empty_drive_state : state :=
  ex_state (<["/dev/sdc" := BlockDev []]> ∅) true.

(** A three-byte image next to a four-byte drive holding the same bytes. *)
Definition ex_verify_state : state :=
  ex_state (<["/tmp/img" := RegFile [x01; x02; x03]]>
           (<["/dev/sdb" := BlockDev [x01; x02; x03; x00]]> ∅)) true.

(** An xz image and an image whose name carries [.gz] before its final
    extension [.IMG]. *)
Definition ex_image_state : state :=
  ex_state (<["/data/a.xz" := RegFile [x01]]>
           (<["/data/image.gz.IMG" := RegFile [x01]]> ∅)) true.

(** A 700-byte image and a 2048-byte drive. *)
Definition ex_write_state : state :=
  ex_state (<["/tmp/img" := RegFile (repeat x01 700)]>
           (<["/dev/sdb" := BlockDev (repeat x00 2048)]> ∅)) true.

(** A 100-byte removable drive holding ones, nothing cancelled. *)
Definition ex_copy_state : state :=
  ex_state (<["/dev/sdb" := BlockDev (repeat x01 100)]> ∅) true.


End Examples.

(* ================================================================== *)
(** * Proofs *)

Module StrFacts.
Import Str.

Lemma append_cons (x : ascii) (a b : string) : String x a +:+ b = String x (a +:+ b).
Proof. reflexivity. Qed.

Lemma starts_with_app (p s : string) : starts_with (p +:+ s) p = true.
Proof.
  induction p as [|c p IH]; [destruct s; reflexivity|].
  simpl. destruct (ascii_dec c c); [exact IH|congruence].
Qed.

Lemma take_app (a b : string) : take (String.length a) (a +:+ b) = a.
Proof.
  unfold take. induction a as [|c a IH]; simpl.
  - destruct b; reflexivity.
  - now rewrite IH.
Qed.

Lemma rfind_none (pred : ascii -> bool) (b : string) :
  all_chars (fun c => negb (pred c)) b = true -> rfind pred b = None.
Proof.
  induction b as [|d b IHb]; simpl; intros Hb; [reflexivity|].
  apply andb_prop in Hb as [Hd Hb]. rewrite (IHb Hb).
  destruct (pred d); [discriminate|reflexivity].
Qed.

Lemma rfind_app_none (pred : ascii -> bool) (a b : string) :
  all_chars (fun c => negb (pred c)) b = true ->
  rfind pred (a +:+ b) = rfind pred a.
Proof.
  intros Hb. induction a as [|c a IH]; simpl.
  - now apply rfind_none.
  - now rewrite IH.
Qed.

Lemma rfind_app_some (pred : ascii -> bool) (a b : string) i :
  rfind pred b = Some i -> rfind pred (a +:+ b) = Some (String.length a + i)%nat.
Proof.
  intros Hb. induction a as [|c a IH]; simpl; [exact Hb|]. now rewrite IH.
Qed.

Lemma rfind_all (pred : ascii -> bool) (c : ascii) (x : string) :
  pred c = true -> all_chars pred x = true ->
  rfind pred (String c x) = Some (String.length x).
Proof.
  revert c. induction x as [|d x IH]; intros c Hc Hx; cbn.
  - now rewrite Hc.
  - cbn in Hx. apply andb_prop in Hx as [Hd Hx].
    specialize (IH d Hd Hx). cbn in IH. now rewrite IH.
Qed.

Lemma find_char_app (c : ascii) (a b : string) :
  all_chars (fun d => if ascii_dec c d then false else true) a = true ->
  find_char c (a +:+ b) = option_map (Nat.add (String.length a)) (find_char c b).
Proof.
  intros Ha. induction a as [|d a IH]; simpl in *.
  - change ("" +:+ b) with b. destruct (find_char c b); reflexivity.
  - destruct (ascii_dec c d); [discriminate|].
    rewrite (IH Ha). destruct (find_char c b); reflexivity.
Qed.

Lemma append_assoc (a b c : string) : a +:+ (b +:+ c) = (a +:+ b) +:+ c.
Proof.
  induction a as [|x a IH]; [reflexivity|].
  rewrite !append_cons. now rewrite IH.
Qed.

Lemma append_nil (a : string) : a +:+ "" = a.
Proof. induction a as [|x a IH]; [reflexivity|]. rewrite append_cons. now rewrite IH. Qed.

Lemma length_append (a b : string) :
  String.length (a +:+ b) = (String.length a + String.length b)%nat.
Proof. induction a as [|x a IH]; [reflexivity|]. rewrite append_cons. simpl. now rewrite IH. Qed.

End StrFacts.

Module LinuxFacts.
Import Str StrFacts IO Device Linux Examples.

Lemma parent_sd (x d : string) :
  all_chars is_alphabetic x = true ->
  all_chars (fun c => negb (is_alphabetic c)) d = true ->
  get_parent_device_path ("/dev/sd" +:+ x +:+ d) = "/dev/sd" +:+ x.
Proof.
  intros Hx Hd. unfold get_parent_device_path.
  rewrite starts_with_app, append_assoc, rfind_app_none by exact Hd.
  change ("/dev/sd" +:+ x) with ("/dev/s" +:+ String "d" x).
  rewrite (rfind_app_some _ _ _ _ (rfind_all is_alphabetic "d"%char x eq_refl Hx)).
  replace (S (String.length "/dev/s" + String.length x))
    with (String.length ("/dev/s" +:+ String "d" x))
    by (rewrite length_append; simpl; lia).
  apply take_app.
Qed.

Lemma parent_sd_last (b : string) (c : ascii) (d : string) :
  starts_with (b +:+ String c d) "/dev/sd" = true -> is_alphabetic c = true ->
  all_chars (fun c => negb (is_alphabetic c)) d = true ->
  get_parent_device_path (b +:+ String c d) = b +:+ String c "".
Proof.
  intros Hs Hc Hd. unfold get_parent_device_path. rewrite Hs.
  replace (b +:+ String c d) with ((b +:+ String c "") +:+ d)
    by (rewrite <- append_assoc; reflexivity).
  rewrite rfind_app_none by exact Hd.
  rewrite (rfind_app_some is_alphabetic b (String c "") 0 ltac:(cbn; now rewrite Hc)).
  replace (S (String.length b + 0)) with (String.length (b +:+ String c ""))
    by (rewrite length_append; simpl; lia).
  apply take_app.
Qed.

Lemma rfind_none_all (pred : ascii -> bool) (s : string) :
  rfind pred s = None -> all_chars (fun c => negb (pred c)) s = true.
Proof.
  induction s as [|x s IH]; simpl; [reflexivity|].
  destruct (rfind pred s); [discriminate|].
  destruct (pred x); [discriminate|]. intros _. simpl. exact (IH eq_refl).
Qed.

Lemma rfind_decomp (pred : ascii -> bool) (s : string) (i : nat) :
  rfind pred s = Some i ->
  exists b c d, s = b +:+ String c d /\ pred c = true
    /\ all_chars (fun c => negb (pred c)) d = true.
Proof.
  revert i. induction s as [|x s IH]; intros i; simpl; [discriminate|].
  destruct (rfind pred s) as [j|] eqn:E.
  - intros _. destruct (IH j eq_refl) as (b & c & d & -> & Hc & Hd).
    exists (String x b), c, d. auto.
  - destruct (pred x) eqn:Ex; [|discriminate]. intros _.
    exists "", x, s. split; [reflexivity|]. split; [exact Ex|]. exact (rfind_none_all pred s E).
Qed.

Lemma rfind_some_of (pred : ascii -> bool) (a : string) (c : ascii) (r : string) :
  pred c = true -> exists i, rfind pred (a +:+ String c r) = Some i.
Proof.
  intros Hc. induction a as [|x a IH]; simpl.
  - destruct (rfind pred r); [eauto|]. rewrite Hc. eauto.
  - destruct IH as [i ->]. eauto.
Qed.

Lemma starts_with_split (s p : string) :
  starts_with s p = true -> exists r, s = p +:+ r.
Proof.
  revert s. induction p as [|c p IH]; intros s H; [exists s; reflexivity|].
  destruct s as [|d s]; [discriminate H|]. simpl in H.
  destruct (ascii_dec c d) as [<-|]; [|discriminate H].
  destruct (IH s H) as [r ->]. exists r. reflexivity.
Qed.

Lemma sd_decomp (q : string) :
  starts_with q "/dev/sd" = true ->
  exists b c d, q = b +:+ String c d /\ is_alphabetic c = true
    /\ all_chars (fun c => negb (is_alphabetic c)) d = true.
Proof.
  intros H. destruct (starts_with_split _ _ H) as [r ->].
  destruct (rfind_some_of is_alphabetic "/dev/s" "d"%char r eq_refl) as [i Hi].
  apply (rfind_decomp is_alphabetic _ i). exact Hi.
Qed.

Lemma all_chars_app (f : ascii -> bool) (a b : string) :
  all_chars f (a +:+ b) = all_chars f a && all_chars f b.
Proof.
  induction a as [|c a IH]; [reflexivity|].
  rewrite append_cons. simpl. rewrite IH. apply andb_assoc.
Qed.

Lemma parent_p_family (pre x y : string) :
  pre = "/dev/nvme" \/ pre = "/dev/mmcblk" ->
  no_p x = true ->
  get_parent_device_path (pre +:+ x +:+ "p" +:+ y) = pre +:+ x
  /\ get_parent_device_path (pre +:+ x) = pre +:+ x.
Proof.
  intros Hpre Hx.
  assert (Hp : no_p (pre +:+ x) = true).
  { unfold no_p. rewrite all_chars_app. fold (no_p x). rewrite Hx.
    destruct Hpre as [-> | ->]; reflexivity. }
  assert (Hsd : forall r, starts_with (pre +:+ r) "/dev/sd" = false).
  { intros r. destruct Hpre as [-> | ->]; rewrite !append_cons; reflexivity. }
  assert (Hfam : forall r, starts_with (pre +:+ r) "/dev/mmcblk"
                           || starts_with (pre +:+ r) "/dev/nvme" = true).
  { intros r. destruct Hpre as [-> | ->]; rewrite !append_cons; simpl;
      now rewrite ?starts_with_app, ?orb_true_r. }
  split; unfold get_parent_device_path.
  - rewrite Hsd, Hfam, append_assoc, (find_char_app _ _ _ Hp). simpl.
    rewrite Nat.add_0_r. apply take_app.
  - rewrite Hsd, Hfam.
    rewrite <- (append_nil (pre +:+ x)) at 1.
    rewrite (find_char_app _ _ _ Hp). reflexivity.
Qed.

(** C8 (parent-device computation, as the code has it).  A path starting
    with ["/dev/sd"] is cut after its last alphabetic character: a path
    [b ++ c ++ d] starting with ["/dev/sd"], [c] alphabetic and [d] without
    letters, goes to [b ++ c] (so [sda1 -> sda], [sdab2 -> sdab],
    [sda -> sda], [sda1b -> sda1b]), and every path starting with
    ["/dev/sd"] splits in this way; a
    path of the [nvme] or [mmcblk] family goes to the part before its first
    ['p'] ([nvme0n1p1 -> nvme0n1], [mmcblk0p1 -> mmcblk0], and a path
    without ['p'] to itself); and every path outside these three families
    ([/dev/vda1], [/dev/hda1], [/dev/xvda1], ...) is returned unchanged,
    partition or not. *)
Theorem parent_device_path_cases (b : string) (c : ascii) (d pre y z p : string) :
  (starts_with (b +:+ String c d) "/dev/sd" = true -> is_alphabetic c = true ->
   all_chars (fun c => negb (is_alphabetic c)) d = true ->
   get_parent_device_path (b +:+ String c d) = b +:+ String c "")
  /\ (forall q, starts_with q "/dev/sd" = true ->
      exists b' c' d', q = b' +:+ String c' d' /\ is_alphabetic c' = true
        /\ all_chars (fun c => negb (is_alphabetic c)) d' = true)
  /\ ((pre = "/dev/nvme" \/ pre = "/dev/mmcblk") -> no_p y = true ->
      get_parent_device_path (pre +:+ y +:+ "p" +:+ z) = pre +:+ y
      /\ get_parent_device_path (pre +:+ y) = pre +:+ y)
  /\ (starts_with p "/dev/sd" = false -> starts_with p "/dev/nvme" = false ->
      starts_with p "/dev/mmcblk" = false ->
      get_parent_device_path p = p).
Proof.
  split; [apply parent_sd_last|]. split; [apply sd_decomp|]. split; [apply parent_p_family|].
  intros H1 H2 H3. unfold get_parent_device_path. now rewrite H1, H2, H3.
Qed.

(** The virtio partition [/dev/vda1] is its own parent. *)
Lemma parent_device_path_vda1 :
  get_parent_device_path "/dev/vda1" = "/dev/vda1".
Proof. reflexivity. Qed.

Lemma digits_value_nonneg (s : string) :
  forall acc v, 0 <= acc -> digits_value acc s = Some v -> 0 <= v.
Proof.
  induction s as [|c s IH]; simpl; intros acc v Hacc H.
  - injection H as <-. exact Hacc.
  - destruct (_ && _) eqn:E; [|discriminate H].
    apply andb_prop in E as [E1 _]. apply Z.leb_le in E1.
    eapply IH; [|exact H]. lia.
Qed.

Lemma parse_u64_nonneg (s : string) (n : Z) : parse_u64 s = Some n -> 0 <= n.
Proof.
  unfold parse_u64. intros H.
  destruct (match s with EmptyString => None | _ => _ end) as [r|]; [|discriminate H].
  destruct (digits_value 0 r) as [w|] eqn:E; [|discriminate H].
  destruct (w <=? _); [|discriminate H]. injection H as <-.
  exact (digits_value_nonneg r 0 w ltac:(lia) E).
Qed.

Lemma size_sectors_nonneg (sys : sysfs) (n : string) : 0 <= size_sectors sys n.
Proof.
  unfold size_sectors. destruct (read_sys_file sys n "size") as [s|]; [|lia].
  destruct (parse_u64 s) eqn:E; [|lia]. exact (parse_u64_nonneg s z E).
Qed.

Lemma size_gb_of_pos (size : Z) : 0 < size < 2 ^ 55 -> (0 < size_gb_of size)%Q.
Proof.
  intros H. unfold size_gb_of.
  rewrite Z.mod_small by lia.
  unfold Qlt, Qdiv, Qmult, Qinv. simpl. lia.
Qed.

Lemma is_removable_spec (sys : sysfs) (n : string) :
  is_removable sys n = true -> read_sys_file sys n "removable" = Ok "1".
Proof.
  unfold is_removable. destruct (read_sys_file sys n "removable") as [s|]; [|discriminate].
  intros H. apply String.eqb_eq in H. now subst.
Qed.

Lemma probe_some (sys : sysfs) (disks : list disk) (parent n : string) (dv : device) :
  probe sys disks parent n = Some dv ->
  path dv = join "/dev/" n /\ name dv = n
  /\ starts_with n "loop" = false /\ path_eq (path dv) parent = false
  /\ is_removable sys n = true /\ size_sectors sys n <> 0
  /\ size_gb dv = size_gb_of (size_sectors sys n)
  /\ mount_point dv = find_mount_point disks n.
Proof.
  unfold probe.
  destruct (starts_with n "loop") eqn:E1; [discriminate|].
  destruct (path_eq (join "/dev/" n) parent) eqn:E2; [discriminate|].
  destruct (is_removable sys n) eqn:E3; [|discriminate].
  destruct (size_sectors sys n =? 0) eqn:E4; [discriminate|].
  simpl. intros H. injection H as <-. simpl.
  apply Z.eqb_neq in E4. tauto.
Qed.

Lemma scan_in (sys : sysfs) (disks : list disk) (parent : string) (es : list (res io_kind string)) (dv : device) :
  In dv (scan sys disks parent es) -> exists n, In (Ok n) es /\ probe sys disks parent n = Some dv.
Proof.
  induction es as [|[n|k] es IH]; simpl; [tauto| |].
  - destruct (probe sys disks parent n) as [d'|] eqn:E.
    + intros [<-|H]; [exists n; tauto|].
      destruct (IH H) as (m & Hm & Hp). exists m. tauto.
    + intros H. destruct (IH H) as (m & Hm & Hp). exists m. tauto.
  - intros H. destruct (IH H) as (m & Hm & Hp). exists m. tauto.
Qed.

Lemma get_removable_devices_err (sys : sysfs) (disks : list disk) (e : anyhow_error) :
  get_removable_devices sys disks = Err e ->
  e = AnyMsg "Could not determine system drive."
  \/ exists k, e = AnyIo k /\ sys_block_entries sys = Err k.
Proof.
  unfold get_removable_devices.
  destruct (find_system_disk_parent disks); [|intros H; injection H as <-; left; reflexivity].
  destruct (sys_block_entries sys) as [es|k]; [discriminate|].
  intros H. injection H as <-. right. exists k. split; reflexivity.
Qed.

Lemma devices_come_from_probe (sys : sysfs) (disks : list disk) (devs : list device) :
  get_removable_devices sys disks = Ok devs ->
  exists parent, find_system_disk_parent disks = Some parent /\
  forall dv, In dv devs -> exists n, probe sys disks parent n = Some dv.
Proof.
  unfold get_removable_devices.
  destruct (find_system_disk_parent disks) as [parent|]; [|discriminate].
  destruct (sys_block_entries sys) as [es|]; [|discriminate].
  intros H. injection H as <-. exists parent. split; [reflexivity|].
  intros dv Hin. destruct (scan_in _ _ _ _ _ Hin) as (n & _ & Hp). eauto.
Qed.

(** C4 (what the enumerator returns).  Suppose every sector count the
    kernel reports is below [2^55] (it is: a byte size is a signed 64-bit
    [loff_t], so a count is below [2^54]), so that [size_sectors * 512]
    does not wrap.  When [get_removable_devices] succeeds, the system disk
    was found, and every device it returns has a positive [size_gb], a
    path different (as a [Path]) from the system disk's parent, the path
    [/dev/<name>], a name that does not start with ["loop"], and a
    [removable] file that reads ["1"]. *)
Theorem discovered_devices_safe (sys : sysfs) (disks : list disk) (devs : list device) :
  (forall n, size_sectors sys n < 2 ^ 55) ->
  get_removable_devices sys disks = Ok devs ->
  exists parent, find_system_disk_parent disks = Some parent /\
  forall dv, In dv devs ->
    (0 < size_gb dv)%Q /\ path_eq (path dv) parent = false
    /\ path dv = join "/dev/" (name dv)
    /\ starts_with (name dv) "loop" = false
    /\ read_sys_file sys (name dv) "removable" = Ok "1".
Proof.
  intros Hsize H. destruct (devices_come_from_probe _ _ _ H) as (parent & Hp & Hall).
  exists parent. split; [exact Hp|]. intros dv Hin.
  destruct (Hall dv Hin) as (n & Hpr).
  destruct (probe_some _ _ _ _ _ Hpr) as (Hpath & Hname & Hloop & Hne & Hrem & Hsz & Hgb & _).
  subst n. repeat split; try assumption.
  - rewrite Hgb. apply size_gb_of_pos.
    pose proof (size_sectors_nonneg sys (name dv)). specialize (Hsize (name dv)). lia.
  - now apply is_removable_spec.
Qed.




End LinuxFacts.

Module ReadFacts.
Import IO Read.

Ltac munfold :=
  unfold open_existing, read_exact, write_all, create, remove_file,
    blkgetsize64, metadata_len in *;
  unfold bind, io, poll, emit, ret, fail, get_fs, set_fs in *.

Ltac bad := let H := fresh in intros H; discriminate H.

Lemma read_loop_cancelled (fuel : nat) dev img size rt (st : state) :
  fst (read_loop fuel dev img size rt st) = Err ECancelled ->
  st_fs (snd (read_loop fuel dev img size rt st)) !! img = None.
Proof.
  revert rt st; induction fuel as [|fuel IH]; intros rt st; simpl;
    destruct (rt <? size); munfold; simpl; try bad.
  destruct (st_running st (st_polls st)); simpl.
  - destruct (st_fs st !! dev) as [nd|]; simpl; [|bad].
    destruct (_ <=? _); simpl; [|bad].
    destruct (st_fs st !! img) as [[d|d]|]; simpl; try bad.
    + apply IH.
    + destruct (_ <=? _); simpl; [apply IH|bad].
  - destruct (st_fs st !! img); simpl; [|bad].
    intros _. apply lookup_delete_eq.
Qed.

Lemma BUFFER_SIZE_pos : 0 < BUFFER_SIZE.
Proof. reflexivity. Qed.

Lemma nchunks_lt (k : nat) (size : Z) :
  0 < size -> (k < nchunks size)%nat -> Z.of_nat k * BUFFER_SIZE < size.
Proof.
  unfold nchunks. intros Hs Hk.
  assert (Hq : Z.of_nat k < (size + BUFFER_SIZE - 1) / BUFFER_SIZE).
  { apply Nat2Z.inj_lt in Hk. rewrite Z2Nat.id in Hk; [lia|].
    apply Z.div_pos; unfold BUFFER_SIZE; lia. }
  assert (Hm := Z.mul_div_le (size + BUFFER_SIZE - 1) BUFFER_SIZE BUFFER_SIZE_pos).
  unfold BUFFER_SIZE in *. nia.
Qed.

(** The loop, entered with [j] more full iterations before the poll that
    reads [false]: it ends in [ECancelled]. *)
Lemma read_loop_cancel_at dev img data (j : nat) :
  dev <> img ->
  forall (fuel : nat) (rt : Z) (st : state),
  st_fs st !! dev = Some (BlockDev data) ->
  (exists d, st_fs st !! img = Some (RegFile d)) ->
  0 <= rt -> rt + Z.of_nat j * BUFFER_SIZE < zlen data -> (j < fuel)%nat ->
  (forall i, (i < j)%nat -> st_running st (st_polls st + i) = true) ->
  st_running st (st_polls st + j) = false ->
  fst (read_loop fuel dev img (zlen data) rt st) = Err ECancelled.
Proof.
  intros Hne. induction j as [|j IH]; intros fuel rt st Hdev [d Himg] Hrt Hlt Hfuel Htrue Hfalse;
    (destruct fuel as [|fuel]; [lia|]); simpl.
  - rewrite (proj2 (Z.ltb_lt rt (zlen data))) by lia. munfold. simpl.
    rewrite Nat.add_0_r in Hfalse. rewrite Hfalse. simpl. rewrite Himg. reflexivity.
  - rewrite (proj2 (Z.ltb_lt rt (zlen data))) by (unfold BUFFER_SIZE in *; lia).
    munfold. simpl.
    specialize (Htrue 0%nat ltac:(lia)) as H0. rewrite Nat.add_0_r in H0.
    rewrite H0. simpl. rewrite Hdev. simpl.
    rewrite (proj2 (Z.leb_le _ _)) by (unfold BUFFER_SIZE in *; lia). simpl.
    rewrite Himg. simpl.
    apply IH; simpl.
    + rewrite lookup_insert_ne by congruence. exact Hdev.
    + rewrite lookup_insert_eq. eauto.
    + unfold BUFFER_SIZE in *; lia.
    + unfold BUFFER_SIZE in *; lia.
    + lia.
    + intros i Hi. replace (S (st_polls st + i))%nat with (st_polls st + S i)%nat by lia.
      apply Htrue. lia.
    + replace (S (st_polls st + j))%nat with (st_polls st + S j)%nat by lia.
      exact Hfalse.
Qed.

(** C2 (read pipeline cancellation).  Take a block device of [size > 0]
    bytes and an output path that is not a block device.  Suppose the
    cancellation flag reads [true] at the first [k] chunk boundaries and
    [false] at the next one, still inside the copy ([k < nchunks size]).
    Then [read::run] deletes the partially written output file and
    returns the cancellation error. *)
Theorem read_cancel_deletes_output (st : state) (dev img : string)
    (data : list byte) (k : nat) :
  dev <> img ->
  st_fs st !! dev = Some (BlockDev data) ->
  (forall d, st_fs st !! img <> Some (BlockDev d)) ->
  0 < zlen data ->
  (k < nchunks (zlen data))%nat ->
  (forall i, (i < k)%nat -> st_running st (st_polls st + i) = true) ->
  st_running st (st_polls st + k) = false ->
  fst (Read.run dev img st) = Err ECancelled
  /\ st_fs (snd (Read.run dev img st)) !! img = None.
Proof.
  intros Hne Hdev Himg Hpos Hk Htrue Hfalse.
  assert (Hrun : fst (Read.run dev img st) = Err ECancelled).
  { unfold Read.run. munfold. simpl. rewrite Hdev. simpl.
    rewrite Hdev. simpl. rewrite (proj2 (Z.eqb_neq _ 0)) by lia. simpl.
    destruct (st_fs st !! img) as [[d|d]|] eqn:Ei;
      [|exfalso; exact (Himg d eq_refl)|]; simpl;
      apply (read_loop_cancel_at dev img data k Hne); simpl;
      try (rewrite lookup_insert_ne by congruence; exact Hdev);
      try (rewrite lookup_insert_eq; eauto);
      try lia; try assumption.
    all: pose proof (nchunks_lt k _ Hpos Hk); lia. }
  split; [exact Hrun|].
  revert Hrun. unfold Read.run. munfold. simpl.
  rewrite Hdev. simpl. rewrite Hdev. simpl.
  rewrite (proj2 (Z.eqb_neq _ 0)) by lia. simpl.
  destruct (st_fs st !! img) as [[d'|d']|]; simpl; apply read_loop_cancelled.
Qed.

(** C3 (zero-size guard).  When the kernel size query of the device
    reports zero bytes, [read::run] fails with the zero-size error and
    leaves the whole state as it was: no output file is created. *)
Theorem read_zero_size_no_output (st : state) (dev img : string) :
  blkgetsize64 dev st = (Ok 0, st) ->
  Read.run dev img st = (Err EZeroSize, st).
Proof.
  intros Hq. unfold Read.run.
  assert (Ho : open_existing dev st = (Ok tt, st)).
  { revert Hq. munfold. simpl.
    destruct (st_fs st !! dev) as [[d|d]|]; simpl; [bad|reflexivity|bad]. }
  unfold bind at 1, io at 1. rewrite Ho.
  unfold bind at 1, io at 1. rewrite Hq. reflexivity.
Qed.

End ReadFacts.

Module WriteFacts.
Import IO Write.

Ltac munfold :=
  unfold open_existing, read_exact, write_all, create, remove_file,
    blkgetsize64, metadata_len in *;
  unfold bind, io, poll, emit, ret, fail, get_fs, set_fs in *.

Lemma read_exact_spec (p : string) (pos n : Z) (st : state) :
  0 <= pos -> 0 <= n ->
  match read_exact p pos n st with
  | (Ok b, st') => st' = st /\ zlen b = n
  | (Err _, st') => st' = st
  end.
Proof.
  intros Hp Hn. munfold. simpl.
  destruct (st_fs st !! p) as [nd|]; simpl; [|reflexivity].
  destruct (pos + n <=? zlen (node_data nd)) eqn:E; simpl; [|reflexivity].
  split; [reflexivity|]. apply Z.leb_le in E. unfold zlen in *.
  rewrite length_firstn, length_skipn. lia.
Qed.

Lemma write_all_spec (p : string) (pos : Z) (bs : list byte) (st : state) :
  st_trace (snd (write_all p pos bs st)) = st_trace st
  /\ st_polls (snd (write_all p pos bs st)) = st_polls st.
Proof.
  munfold. simpl.
  destruct (st_fs st !! p) as [[d|d]|]; simpl; auto.
  destruct (_ <=? _); simpl; auto.
Qed.

Lemma padded_size_aligned (x : Z) :
  0 < x -> x mod block_size <> 0 ->
  padded_size x mod block_size = 0 /\ x < padded_size x < x + block_size.
Proof.
  intros Hx Hm. unfold padded_size, block_size in *.
  rewrite (proj2 (Z.eqb_neq _ _) Hm). simpl.
  split; [apply Z.mod_mul; lia|].
  Z.div_mod_to_equations. lia.
Qed.

Lemma padded_size_full : padded_size BUFFER_SIZE = BUFFER_SIZE.
Proof. reflexivity. Qed.

Section WriteLoop.
#[local] Opaque read_exact write_all.

Lemma write_loop_trace (img dev : string) (L : Z) (fuel : nat) :
  forall (w pos : Z) (st : state),
  0 <= w -> (w < L -> pos = w /\ w mod BUFFER_SIZE = 0) ->
  let '(r, st') := write_loop fuel img dev L w pos st in
  exists evs, st_trace st' = st_trace st ++ evs /\ write_trace dev L w pos evs /\
   (r = Ok tt -> L - w <= Z.of_nat fuel * BUFFER_SIZE -> w < L -> L mod block_size <> 0 ->
     exists pre d,
       evs = pre ++ [EvDeviceWrite dev (L - zlen d)
                       (d ++ repeat x00 (Z.to_nat (padded_size (zlen d) - zlen d)));
                     EvWriteProgress L]
       /\ zlen d = L mod BUFFER_SIZE).
Proof.
  induction fuel as [|fuel IH]; intros w pos st Hw Hinv.
  - simpl. destruct (w <? L); simpl; exists []; rewrite app_nil_r;
      (split; [reflexivity|split; [constructor|intros _ H; lia]]).
  - simpl. destruct (w <? L) eqn:Ew; simpl.
    2:{ exists []. rewrite app_nil_r. split; [reflexivity|split; [constructor|]].
        intros _ _ H. apply Z.ltb_ge in Ew. lia. }
    apply Z.ltb_lt in Ew. destruct (Hinv Ew) as [-> Hmod].
    assert (Ht : 0 <= Z.min BUFFER_SIZE (L - w)) by (unfold BUFFER_SIZE; lia).
    set (t := Z.min BUFFER_SIZE (L - w)) in *.
    unfold bind, io, poll, emit, fail, ret. simpl.
    destruct (st_running st (st_polls st)) eqn:Er; simpl.
    2:{ exists []. rewrite app_nil_r. split; [reflexivity|split; [constructor|]].
        intros H. discriminate H. }
    set (st1 := {| st_fs := st_fs st; st_running := st_running st;
                   st_polls := S (st_polls st); st_trace := st_trace st |}).
    pose proof (read_exact_spec img w t st1 Hw Ht) as Hr.
    destruct (read_exact img w t st1) as [[b|e] st2] eqn:E1.
    2:{ subst st2. exists []. rewrite app_nil_r. split; [reflexivity|split; [constructor|]].
        intros H. discriminate H. }
    destruct Hr as [-> Hb].
    set (out := b ++ repeat x00 (Z.to_nat (padded_size t - t))).
    pose proof (write_all_spec dev w out st1) as [Htr Hpl].
    destruct (write_all dev w out st1) as [[u|e] st3] eqn:E2; simpl in Htr, Hpl.
    2:{ exists []. rewrite app_nil_r. split; [exact Htr|split; [constructor|]].
        intros H. discriminate H. }
    set (st4 := {| st_fs := st_fs st3; st_running := st_running st3;
                   st_polls := st_polls st3;
                   st_trace := (st_trace st3 ++ [EvDeviceWrite dev w out]) ++
                               [EvWriteProgress (w + t)] |}).
    assert (Hfull : w + t < L -> t = BUFFER_SIZE).
    { unfold t. intros H. lia. }
    specialize (IH (w + t) (w + padded_size t) st4 ltac:(lia)).
    destruct (write_loop fuel img dev L (w + t) (w + padded_size t) st4) as [r st'] eqn:E3.
    destruct IH as (evs & Htr' & Hwt & Hfin).
    { intros Hlt. rewrite (Hfull Hlt), padded_size_full. split; [reflexivity|].
      rewrite Zplus_mod, Hmod, Z_mod_same_full. reflexivity. }
    exists (EvDeviceWrite dev w out :: EvWriteProgress (w + t) :: evs).
    split; [|split].
    + rewrite Htr'. unfold st4. simpl. rewrite Htr. rewrite <- !app_assoc. reflexivity.
    + pose proof (wt_step dev L w w (w + t) b evs) as Hs.
      replace (w + t - w) with t in Hs by lia.
      apply Hs; [lia|reflexivity|lia|exact Hwt].
    + intros Hok Hfuel _ HL.
      destruct (Z.lt_ge_cases (w + t) L) as [Hlt|Hge].
      * destruct (Hfin Hok ltac:(rewrite (Hfull Hlt); lia) Hlt HL) as (pre & d & Hevs & Hd).
        exists (EvDeviceWrite dev w out :: EvWriteProgress (w + t) :: pre), d.
        split; [rewrite Hevs; reflexivity|exact Hd].
      * assert (Hend : w + t = L) by (unfold t; lia).
        assert (evs = []) as ->.
        { inversion Hwt; [reflexivity|lia]. }
        exists [], b.
        assert (Hlast : t = L mod BUFFER_SIZE).
        { unfold t in *. unfold block_size, BUFFER_SIZE in *.
          Z.div_mod_to_equations. lia. }
        split; [|lia].
        simpl. unfold out. rewrite Hb, Hend. do 2 f_equal; lia.
Qed.

End WriteLoop.

Lemma write_trace_bounds (dev : string) (L w pos : Z) (evs : list event) :
  write_trace dev L w pos evs ->
  forall n, In (EvWriteProgress n) evs -> w < n <= L.
Proof.
  induction 1 as [|w pos n d rest Hlt Hn Hd Hrest IH]; simpl; [tauto|].
  intros m [H|[H|H]]; try discriminate H.
  - injection H as <-. unfold BUFFER_SIZE in *. lia.
  - specialize (IH m H). unfold BUFFER_SIZE in *. lia.
Qed.

Lemma nchunks_enough (L : Z) : 0 < L -> L <= Z.of_nat (nchunks L) * BUFFER_SIZE.
Proof.
  intros HL. unfold nchunks. rewrite Z2Nat.id.
  - unfold BUFFER_SIZE. Z.div_mod_to_equations. lia.
  - apply Z.div_pos; unfold BUFFER_SIZE; lia.
Qed.

(** C1 (padding of the last chunk, progress in genuine bytes).  Every run
    of the write loop of [write::run] on an image of length [L] leaves a
    trace of [write_trace] shape: each device write carries the genuine
    bytes of its chunk followed by zeros up to [padded_size], and each
    progress value is the running count of genuine bytes, in [(0, L]].
    When the loop completes on an image whose length is not a multiple of
    the 512-byte block size, the last device write is the final chunk of
    [L mod BUFFER_SIZE] genuine bytes zero-padded to the next multiple of
    512, and the last progress value is [L]. *)
Theorem write_padding_progress (st : state) (img dev : string) (L : Z) :
  let '(r, st') := write_stage img dev L st in
  exists evs,
    st_trace st' = st_trace st ++ evs
    /\ write_trace dev L 0 0 evs
    /\ (forall n, In (EvWriteProgress n) evs -> 0 < n <= L)
    /\ (r = Ok tt -> 0 < L -> L mod block_size <> 0 ->
        exists pre d,
          evs = pre ++ [EvDeviceWrite dev (L - zlen d)
                          (d ++ repeat x00 (Z.to_nat (padded_size (zlen d) - zlen d)));
                        EvWriteProgress L]
          /\ zlen d = L mod BUFFER_SIZE
          /\ padded_size (zlen d) mod block_size = 0
          /\ zlen d < padded_size (zlen d) < zlen d + block_size).
Proof.
  unfold write_stage.
  pose proof (write_loop_trace img dev L (nchunks L) 0 0 st ltac:(lia)
                (fun _ => conj eq_refl eq_refl)) as H.
  destruct (write_loop (nchunks L) img dev L 0 0 st) as [r st'].
  destruct H as (evs & Htr & Hwt & Hfin).
  exists evs. split; [exact Htr|]. split; [exact Hwt|]. split.
  - intros n Hn. pose proof (write_trace_bounds _ _ _ _ _ Hwt n Hn). lia.
  - intros Hok HL Hm.
    destruct (Hfin Hok ltac:(pose proof (nchunks_enough L HL); lia) HL Hm)
      as (pre & d & Hevs & Hd).
    exists pre, d. split; [exact Hevs|]. split; [exact Hd|].
    apply padded_size_aligned.
    + rewrite Hd. unfold block_size, BUFFER_SIZE in *. Z.div_mod_to_equations. lia.
    + rewrite Hd. unfold block_size, BUFFER_SIZE in *. Z.div_mod_to_equations. lia.
Qed.

Lemma read_exact_node (p : string) (pos n : Z) (st : state) (nd : node) :
  st_fs st !! p = Some nd ->
  read_exact p pos n st =
    if pos + n <=? zlen (node_data nd)
    then (Ok (take (Z.to_nat n) (drop (Z.to_nat pos) (node_data nd))), st)
    else (Err UnexpectedEof, st).
Proof.
  intros H. munfold. simpl. rewrite H. simpl.
  destruct (_ <=? _); reflexivity.
Qed.

Section VerifyLoop.
#[local] Opaque read_exact.

Lemma verify_loop_spec (img dev : string) (L : Z) (NI ND : node) (fuel : nat) :
  forall (rem : Z) (fi fd : list byte) (st : state),
  st_fs st !! img = Some NI -> st_fs st !! dev = Some ND ->
  0 <= rem <= L ->
  L - rem <= zlen (node_data NI) -> L - rem <= zlen (node_data ND) ->
  fi = take (Z.to_nat (L - rem)) (node_data NI) ->
  fd = take (Z.to_nat (L - rem)) (node_data ND) ->
  let '(r, st') := verify_loop fuel img dev L rem fi fd st in
  st_fs st' = st_fs st /\
  exists evs, st_trace st' = st_trace st ++ evs /\
   (forall x, In x evs -> exists n, x = EvVerifyProgress n /\ L - rem < n <= L) /\
   (forall fi' fd', r = Ok (fi', fd') -> rem <= Z.of_nat fuel * BUFFER_SIZE ->
      fi' = take (Z.to_nat L) (node_data NI) /\ fd' = take (Z.to_nat L) (node_data ND) /\
      L <= zlen (node_data NI) /\ L <= zlen (node_data ND) /\
      (0 < rem -> exists pre, evs = pre ++ [EvVerifyProgress L])) /\
   (rem <= Z.of_nat fuel * BUFFER_SIZE ->
      L <= zlen (node_data NI) -> L <= zlen (node_data ND) ->
      (forall i : nat, Z.of_nat i * BUFFER_SIZE < rem -> st_running st (st_polls st + i) = true) ->
      exists fi' fd', r = Ok (fi', fd')).
Proof.
  induction fuel as [|fuel IH]; intros rem fi fd st Hi Hd Hrem Hli Hld Hfi Hfd.
  - simpl. destruct (0 <? rem); simpl; unfold ret;
      (split; [reflexivity|exists []; rewrite app_nil_r; split; [reflexivity|]]);
      (split; [intros x []|split; [|intros; eauto]]);
      intros fi' fd' Hok Hf; injection Hok as <- <-;
      (assert (rem = 0) as -> by lia); rewrite Z.sub_0_r in *;
      repeat split; try assumption; lia.
  - simpl. destruct (0 <? rem) eqn:Er0.
    2:{ apply Z.ltb_ge in Er0. assert (rem = 0) as -> by lia. rewrite Z.sub_0_r in *.
        unfold ret. split; [reflexivity|]. exists []. rewrite app_nil_r.
        split; [reflexivity|]. split; [intros x []|]. split; [|intros; eauto].
        intros fi' fd' Hok _. injection Hok as <- <-. repeat split; try assumption; lia. }
    apply Z.ltb_lt in Er0.
    unfold bind, io, poll, emit, fail, ret. simpl.
    destruct (st_running st (st_polls st)) eqn:Er; simpl.
    2:{ split; [reflexivity|]. exists []. rewrite app_nil_r.
        split; [reflexivity|]. split; [intros x []|]. split; [intros ? ? H; discriminate H|].
        intros _ _ _ Hrun. specialize (Hrun 0%nat ltac:(simpl; lia)).
        rewrite Nat.add_0_r, Er in Hrun. discriminate Hrun. }
    set (c := Z.min BUFFER_SIZE rem).
    set (st1 := {| st_fs := st_fs st; st_running := st_running st;
                   st_polls := S (st_polls st); st_trace := st_trace st |}).
    rewrite (read_exact_node img (L - rem) c st1 NI Hi).
    destruct (L - rem + c <=? zlen (node_data NI)) eqn:Eci; simpl.
    2:{ split; [reflexivity|]. exists []. rewrite app_nil_r.
        split; [reflexivity|]. split; [intros x []|]. split; [intros ? ? H; discriminate H|].
        intros _ HLi _ _. apply Z.leb_gt in Eci. unfold c in Eci. lia. }
    rewrite (read_exact_node dev (L - rem) c st1 ND Hd).
    destruct (L - rem + c <=? zlen (node_data ND)) eqn:Ecd; simpl.
    2:{ split; [reflexivity|]. exists []. rewrite app_nil_r.
        split; [reflexivity|]. split; [intros x []|]. split; [intros ? ? H; discriminate H|].
        intros _ _ HLd _. apply Z.leb_gt in Ecd. unfold c in Ecd. lia. }
    apply Z.leb_le in Eci, Ecd.
    assert (Hc : 0 < c <= rem) by (unfold c, BUFFER_SIZE; lia).
    set (st2 := {| st_fs := st_fs st; st_running := st_running st;
                   st_polls := S (st_polls st);
                   st_trace := st_trace st ++ [EvVerifyProgress (L - (rem - c))] |}).
    assert (Htake : forall D : list byte, take (Z.to_nat (L - rem)) D ++
                              take (Z.to_nat c) (drop (Z.to_nat (L - rem)) D)
                              = take (Z.to_nat (L - (rem - c))) D).
    { intros D. rewrite take_take_drop. f_equal. lia. }
    specialize (IH (rem - c) (fi ++ take (Z.to_nat c) (drop (Z.to_nat (L - rem)) (node_data NI)))
                  (fd ++ take (Z.to_nat c) (drop (Z.to_nat (L - rem)) (node_data ND))) st2
                  Hi Hd ltac:(lia) ltac:(lia) ltac:(lia)
                  ltac:(rewrite Hfi; apply Htake) ltac:(rewrite Hfd; apply Htake)).
    destruct (verify_loop fuel img dev L (rem - c) _ _ st2) as [r st'].
    destruct IH as [Hfs (evs & Htr & Hin & Hok & Hcomp)].
    split; [exact Hfs|].
    exists (EvVerifyProgress (L - (rem - c)) :: evs). split.
    { rewrite Htr. simpl. rewrite <- app_assoc. reflexivity. }
    split; [|split].
    + intros x [<-|Hx]; [eexists; split; [reflexivity|lia]|].
      destruct (Hin x Hx) as (n & -> & Hn). eexists; split; [reflexivity|lia].
    + intros fi' fd' Hr Hf.
      assert (Hf' : rem - c <= Z.of_nat fuel * BUFFER_SIZE).
      { unfold c, BUFFER_SIZE in *. lia. }
      destruct (Hok fi' fd' Hr Hf') as (H1 & H2 & H3 & H4 & H5).
      repeat split; try assumption. intros _.
      destruct (Z.lt_ge_cases 0 (rem - c)) as [Hp|Hz].
      * destruct (H5 Hp) as [pre ->]. exists (EvVerifyProgress (L - (rem - c)) :: pre).
        reflexivity.
      * destruct evs as [|x evs].
        -- exists []. simpl. do 2 f_equal. lia.
        -- destruct (Hin x (or_introl eq_refl)) as (n & _ & Hn). lia.
    + intros Hf HLi HLd Hrun.
      apply Hcomp; [unfold c, BUFFER_SIZE in *; lia|assumption|assumption|].
      intros i Hi'. simpl.
      replace (S (st_polls st + i)) with (st_polls st + S i)%nat by lia.
      apply Hrun. unfold c, BUFFER_SIZE in *. lia.
Qed.

Lemma verify_loop_not_mismatch (img dev : string) (L : Z) (fuel : nat) :
  forall (rem : Z) (fi fd : list byte) (st : state),
  fst (verify_loop fuel img dev L rem fi fd st) <> Err EMismatch.
Proof.
  induction fuel as [|fuel IH]; intros rem fi fd st; simpl;
    destruct (0 <? rem); unfold ret; simpl; try discriminate.
  unfold bind, poll, fail, io, emit. simpl.
  destruct (st_running st (st_polls st)); simpl; [|discriminate].
  destruct (read_exact img _ _ _) as [[b1|k1] s1]; simpl; [|discriminate].
  destruct (read_exact dev _ _ _) as [[b2|k2] s2]; simpl; [|discriminate].
  apply IH.
Qed.

End VerifyLoop.

(** C7 (verification consumes both streams).  Let the image and the device
    hold [DI] and [DD] when the verification pass of [write::run] starts on
    an image of length [L].  The pass only reads.  It reports the mismatch
    error only after reading both sides in lockstep chunks up to [L]: the
    last progress value is [L], both sides have [L] bytes, and the digests
    of the two full [L]-byte prefixes differ.  When both sides are long
    enough and the flag stays set, the result is decided by comparing the
    two digests alone: equal digests give success, different ones give the
    mismatch error. *)
Theorem verify_full_streams (digest : list byte -> list byte) (st : state)
    (img dev : string) (L : Z) (NI ND : node) :
  st_fs st !! img = Some NI -> st_fs st !! dev = Some ND -> 0 <= L ->
  let '(r, st') := verify_stage digest img dev L st in
  st_fs st' = st_fs st
  /\ (r = Err EMismatch ->
      L <= zlen (node_data NI) /\ L <= zlen (node_data ND)
      /\ digest (take (Z.to_nat L) (node_data NI)) <> digest (take (Z.to_nat L) (node_data ND))
      /\ (0 < L -> exists pre,
            st_trace st' = st_trace st ++ EvVerifyStart L :: pre ++ [EvVerifyProgress L]))
  /\ (L <= zlen (node_data NI) -> L <= zlen (node_data ND) ->
      (forall i : nat, Z.of_nat i * BUFFER_SIZE < L -> st_running st (st_polls st + i) = true) ->
      r = if bool_decide (digest (take (Z.to_nat L) (node_data NI))
                          = digest (take (Z.to_nat L) (node_data ND)))
          then Ok tt else Err EMismatch).
Proof.
  intros Hi Hd HL. unfold verify_stage.
  unfold open_existing, bind, io, get_fs, emit, ret, fail. simpl.
  rewrite Hi. simpl. rewrite Hd. simpl.
  set (st1 := {| st_fs := st_fs st; st_running := st_running st;
                 st_polls := st_polls st; st_trace := st_trace st ++ [EvVerifyStart L] |}).
  pose proof (verify_loop_spec img dev L NI ND (nchunks L) L [] [] st1) as H.
  pose proof (verify_loop_not_mismatch img dev L (nchunks L) L [] [] st1) as Hnm.
  simpl in H. specialize (H Hi Hd).
  rewrite Z.sub_diag in H. unfold zlen in H.
  specialize (H ltac:(lia) ltac:(lia) ltac:(lia) eq_refl eq_refl).
  assert (Hf : L <= Z.of_nat (nchunks L) * BUFFER_SIZE).
  { destruct (Z.eq_dec L 0) as [->|]; [unfold BUFFER_SIZE; lia|apply nchunks_enough; lia]. }
  destruct (verify_loop (nchunks L) img dev L L [] [] st1) as [[[fi fd]|e] st'].
  - destruct H as [Hfs (evs & Htr & Hin & Hok & Hcomp)].
    destruct (Hok fi fd eq_refl Hf) as (-> & -> & HLi & HLd & Hlast).
    destruct (bool_decide _) eqn:Eb; simpl.
    + split; [exact Hfs|]. split; [intros H; discriminate H|]. reflexivity.
    + split; [exact Hfs|]. split; [|reflexivity].
      intros _. repeat split; try assumption.
      * intros Heq. apply bool_decide_eq_false in Eb. exact (Eb Heq).
      * intros HL'. destruct (Hlast HL') as [pre ->]. exists pre.
        rewrite Htr. simpl. rewrite <- app_assoc. reflexivity.
  - destruct H as [Hfs (evs & Htr & Hin & Hok & Hcomp)]. simpl.
    split; [exact Hfs|]. split.
    + intros He. injection He as ->. simpl in Hnm. exfalso. exact (Hnm eq_refl).
    + intros HLi HLd Hrun. destruct (Hcomp Hf HLi HLd Hrun) as (? & ? & H). discriminate H.
Qed.

End WriteFacts.

Module DecompressFacts.
Import Str StrFacts IO Write.






Lemma select_codec_table (e : string) :
  (select_codec e = Some Gzip <-> e = "gz" \/ e = "gzip")
  /\ (select_codec e = Some Xz <-> e = "xz")
  /\ (select_codec e = Some Zstd <-> e = "zst" \/ e = "zstd").
Proof.
  unfold select_codec.
  destruct (String.eqb_spec e "gz") as [->|H1]; [simpl; intuition congruence|].
  destruct (String.eqb_spec e "gzip") as [->|H2]; [simpl; intuition congruence|].
  destruct (String.eqb_spec e "xz") as [->|H3]; [simpl; intuition congruence|].
  destruct (String.eqb_spec e "zst") as [->|H4]; [simpl; intuition congruence|].
  destruct (String.eqb_spec e "zstd") as [->|H5]; simpl; intuition congruence.
Qed.

Lemma decompress_passthrough (decode : codec -> list byte -> list byte * option io_kind)
    (p : string) (st : state) (nd : node) :
  st_fs st !! p = Some nd -> select_codec (ext_of p) = None ->
  decompress_image decode p st = (Ok (mkImage p None), st).
Proof.
  intros Hp Hs. unfold decompress_image. rewrite Hs.
  unfold open_existing, get_fs, ret, fail; unfold bind. simpl. rewrite Hp. reflexivity.
Qed.

(** C5 (decoder selection).  Let the input file exist.  The lowercased
    extension [ext_of p] selects gzip exactly for ["gz"] and ["gzip"], xz
    exactly for ["xz"] and Zstandard exactly for ["zst"] and ["zstd"].  For
    any other extension, none included, [decompress_image] returns the
    original path with no temporary file and leaves the state untouched.
    When a decoder is selected, the result depends on the decoding
    functions only through that decoder: two of them that agree on it give
    the same run. *)
Theorem decompress_codec_choice (decode decode' : codec -> list byte -> list byte * option io_kind)
    (p : string) (st : state) (nd : node) :
  st_fs st !! p = Some nd ->
  (select_codec (ext_of p) = Some Gzip <-> ext_of p = "gz" \/ ext_of p = "gzip")
  /\ (select_codec (ext_of p) = Some Xz <-> ext_of p = "xz")
  /\ (select_codec (ext_of p) = Some Zstd <-> ext_of p = "zst" \/ ext_of p = "zstd")
  /\ (select_codec (ext_of p) = None ->
      decompress_image decode p st = (Ok (mkImage p None), st))
  /\ (forall c, select_codec (ext_of p) = Some c -> decode c = decode' c ->
      decompress_image decode p st = decompress_image decode' p st).
Proof.
  intros Hp. destruct (select_codec_table (ext_of p)) as (T1 & T2 & T3).
  split; [exact T1|]. split; [exact T2|]. split; [exact T3|].
  split; [exact (decompress_passthrough decode p st nd Hp)|].
  intros c Hc Hd. unfold decompress_image. rewrite Hc. now rewrite Hd.
Qed.

End DecompressFacts.

Module WindowsFacts.
Import IO Device Windows Platform.

(** C6 (as the code has it).  On Windows, every call of
    [platform::get_removable_devices] panics through [unimplemented!]: it
    returns neither a device list nor an error value.  On a target other
    than Linux and Windows, [platform] exports no such function.  And no
    error any target returns means "unsupported": the only errors are
    Linux's ["Could not determine system drive."] and the I/O error of
    listing [/sys/block]. *)
Theorem windows_discover_always_panics :
  (exists f, Platform.get_removable_devices TargetWindows = Some f
     /\ forall sys disks, exists msg, f sys disks = Panicked msg)
  /\ Platform.get_removable_devices TargetOther = None
  /\ (forall t f sys disks e, Platform.get_removable_devices t = Some f ->
        f sys disks = Returned (Err e) ->
        e = AnyMsg "Could not determine system drive."
        \/ exists k, e = AnyIo k /\ Linux.sys_block_entries sys = Err k).
Proof.
  split; [|split; [reflexivity|]].
  - eexists. split; [reflexivity|]. intros sys disks. eexists. reflexivity.
  - intros [| |] f sys disks e Hf; cbn in Hf; try discriminate Hf;
      injection Hf as <-; intros H.
    + injection H as H. exact (LinuxFacts.get_removable_devices_err sys disks e H).
    + discriminate H.
Qed.

(** The Windows [get_removable_devices] panics with the message of
    [unimplemented!]; it does not return an error. *)
Lemma windows_discover_not_an_error :
  Windows.get_removable_devices = Panicked "not implemented: Windows support is not yet implemented.".
Proof. reflexivity. Qed.

End WindowsFacts.

(* ------------------------------------------------------------------ *)
(** ** The theorems at concrete inputs *)

Module ReadMore.
Import IO Read.

Ltac munfold :=
  unfold open_existing, read_exact, write_all, create, remove_file,
    blkgetsize64, metadata_len in *;
  unfold bind, io, poll, emit, ret, fail, get_fs, set_fs in *.

Lemma chunk_lt_iff (j : nat) (L : Z) :
  0 <= L -> (Z.of_nat j * BUFFER_SIZE < L <-> (j < nchunks L)%nat).
Proof.
  intros HL. unfold nchunks.
  rewrite Nat2Z.inj_lt, Z2Nat.id by (apply Z.div_pos; unfold BUFFER_SIZE; lia).
  unfold BUFFER_SIZE. Z.div_mod_to_equations. split; intros; nia.
Qed.

Lemma overwrite_take (data : list byte) (n m : nat) :
  (n + m <= length data)%nat ->
  overwrite (take n data) n (take m (drop n data)) = take (n + m) data.
Proof.
  intros H. unfold overwrite.
  rewrite take_take, Nat.min_id, length_take, Nat.min_l, Nat.sub_diag by lia. simpl.
  rewrite (drop_ge (take n data)) by (rewrite length_take; lia).
  rewrite app_nil_r. apply take_take_drop.
Qed.

Lemma read_loop_ok (dev img : string) (data : list byte) (fs0 : gmap string node) :
  dev <> img -> fs0 !! dev = Some (BlockDev data) ->
  forall (fuel j : nat) (st : state),
  st_fs st = <[img := RegFile (take (Z.to_nat (Z.min (Z.of_nat j * BUFFER_SIZE) (zlen data))) data)]> fs0 ->
  zlen data <= Z.of_nat (j + fuel) * BUFFER_SIZE ->
  (forall i : nat, Z.of_nat (j + i) * BUFFER_SIZE < zlen data ->
                   st_running st (st_polls st + i) = true) ->
  exists st',
    read_loop fuel dev img (zlen data) (Z.min (Z.of_nat j * BUFFER_SIZE) (zlen data)) st = (Ok tt, st')
    /\ st_fs st' = <[img := RegFile data]> fs0
    /\ st_running st' = st_running st
    /\ st_trace st' = st_trace st ++
         map (fun k : nat => EvReadProgress (Z.min (Z.of_nat k * BUFFER_SIZE) (zlen data)))
             (seq (S j) (nchunks (zlen data) - j)).
Proof.
  intros Hne Hdev. induction fuel as [|fuel IH]; intros j st Hfs Hfuel Hrun.
  all: assert (HL : 0 <= zlen data) by (unfold zlen; lia).
  all: destruct (Z_lt_le_dec (Z.of_nat j * BUFFER_SIZE) (zlen data)) as [Hlt|Hge].
  2,4: rewrite Z.min_r in * by lia; exists st; cbn [read_loop]; destruct (zlen data <? zlen data) eqn:Eq; [apply Z.ltb_lt in Eq; lia|];
       split; [reflexivity|]; split;
       [rewrite Hfs; unfold zlen; rewrite Nat2Z.id, take_ge by lia; reflexivity|];
       split; [reflexivity|];
       replace (nchunks (zlen data) - j)%nat with 0%nat
         by (pose proof (proj2 (Z.nlt_ge _ _) Hge) as Hn;
             rewrite (chunk_lt_iff j _ HL) in Hn; lia);
       simpl; rewrite app_nil_r; reflexivity.
  - rewrite Nat.add_0_r in Hfuel. lia.
  - rewrite Z.min_l by lia. rewrite Z.min_l in Hfs by lia. cbn [read_loop].
    rewrite (proj2 (Z.ltb_lt _ _) Hlt).
    set (c := Z.min BUFFER_SIZE (zlen data - Z.of_nat j * BUFFER_SIZE)).
    assert (Hc : 0 < c <= BUFFER_SIZE) by (unfold c, BUFFER_SIZE in *; lia).
    assert (Hnext : Z.of_nat j * BUFFER_SIZE + c = Z.min (Z.of_nat (S j) * BUFFER_SIZE) (zlen data))
      by (unfold c, BUFFER_SIZE in *; lia).
    specialize (Hrun 0%nat ltac:(rewrite Nat.add_0_r; exact Hlt)) as H0.
    rewrite Nat.add_0_r in H0.
    munfold. simpl. rewrite H0. simpl. rewrite Hfs.
    rewrite lookup_insert_ne by congruence. rewrite Hdev. simpl.
    rewrite (proj2 (Z.leb_le _ _)) by (unfold c, BUFFER_SIZE in *; lia). simpl.
    rewrite lookup_insert_eq. simpl.
    rewrite insert_insert.
    rewrite Hnext.
    match goal with
    | |- exists st', read_loop fuel dev img _ _ ?s = _ /\ _ => 
        destruct (IH (S j) s) as (st' & Hr & Hf & Hrn & Ht)
    end.
    + cbn [st_fs]. try (destruct (decide (img = img)) as [_|]; [|congruence]). rewrite <- Hnext.
      assert (Hj : (0 <= Z.of_nat j * BUFFER_SIZE)) by (unfold BUFFER_SIZE; lia).
      rewrite (Z2Nat.inj_add _ _ Hj) by lia.
      rewrite overwrite_take; [reflexivity|].
      unfold zlen, c in *. lia.
    + rewrite Nat.add_succ_l, <- Nat.add_succ_r. exact Hfuel.
    + intros i Hi. simpl. replace (S (st_polls st + i)) with (st_polls st + S i)%nat by lia.
      apply Hrun. replace (j + S i)%nat with (S j + i)%nat by lia. exact Hi.
    + exists st'. split; [exact Hr|]. split; [exact Hf|]. split; [exact Hrn|].
      rewrite Ht. simpl. rewrite <- app_assoc.
      pose proof (proj1 (chunk_lt_iff j _ HL) Hlt) as Hj.
      replace (nchunks (zlen data) - j)%nat with (S (nchunks (zlen data) - S j)) by lia.
      reflexivity.
Qed.

(* [read::run] on a non-empty device that is not cancelled, in the
   model, where [File::create] does not fail. *)
Lemma read_run_ok (st : state) (dev img : string) (data : list byte) :
  dev <> img ->
  st_fs st !! dev = Some (BlockDev data) ->
  (forall d, st_fs st !! img <> Some (BlockDev d)) ->
  0 < zlen data ->
  (forall i, (i < nchunks (zlen data))%nat -> st_running st (st_polls st + i) = true) ->
  exists st',
    Read.run dev img st = (Ok tt, st')
    /\ st_fs st' = <[img := RegFile data]> (st_fs st)
    /\ st_trace st' = st_trace st ++ EvReadStart (zlen data) ::
         map (fun k : nat => EvReadProgress (Z.min (Z.of_nat k * BUFFER_SIZE) (zlen data)))
             (seq 1 (nchunks (zlen data))).
Proof.
  intros Hne Hdev Himg Hpos Hrun.
  assert (HL : 0 <= zlen data) by lia.
  set (st1 := {| st_fs := <[img := RegFile []]> (st_fs st); st_running := st_running st;
                 st_polls := st_polls st; st_trace := st_trace st ++ [EvReadStart (zlen data)] |}).
  destruct (read_loop_ok dev img data (st_fs st) Hne Hdev (nchunks (zlen data)) 0 st1)
    as (st' & Hr & Hf & Hrn & Ht).
  - unfold st1; cbn [st_fs]. change (Z.of_nat 0 * BUFFER_SIZE) with 0.
    rewrite Z.min_l by lia. reflexivity.
  - exact (WriteFacts.nchunks_enough _ Hpos).
  - intros i Hi. apply Hrun. apply chunk_lt_iff; [exact HL|exact Hi].
  - change (Z.of_nat 0 * BUFFER_SIZE) with 0 in Hr. rewrite Z.min_l in Hr by lia.
    exists st'. unfold Read.run. munfold. simpl. rewrite Hdev. simpl. rewrite Hdev. simpl.
    rewrite (proj2 (Z.eqb_neq _ 0)) by lia. simpl.
    destruct (st_fs st !! img) as [[d|d]|] eqn:Ei; [| exfalso; exact (Himg d eq_refl) |];
      simpl; (split; [exact Hr|]); split; try exact Hf;
      rewrite Ht; simpl; rewrite <- app_assoc; rewrite Nat.sub_0_r; reflexivity.
Qed.

Lemma read_run_cancelled (st : state) (dev img : string) (data : list byte) (k : nat) :
  dev <> img ->
  st_fs st !! dev = Some (BlockDev data) ->
  (forall d, st_fs st !! img <> Some (BlockDev d)) ->
  0 < zlen data ->
  (k < nchunks (zlen data))%nat ->
  (forall i, (i < k)%nat -> st_running st (st_polls st + i) = true) ->
  st_running st (st_polls st + k) = false ->
  fst (Read.run dev img st) = Err ECancelled.
Proof.
  intros Hne Hdev Himg Hpos Hk Htrue Hfalse.
  unfold Read.run. munfold. simpl. rewrite Hdev. simpl.
  rewrite Hdev. simpl. rewrite (proj2 (Z.eqb_neq _ 0)) by lia. simpl.
  destruct (st_fs st !! img) as [[d|d]|] eqn:Ei;
    [|exfalso; exact (Himg d eq_refl)|]; simpl;
    apply (ReadFacts.read_loop_cancel_at dev img data k Hne); simpl;
    try (rewrite lookup_insert_ne by congruence; exact Hdev);
    try (rewrite lookup_insert_eq; eauto);
    try lia; try assumption.
  all: pose proof (ReadFacts.nchunks_lt k _ Hpos Hk); lia.
Qed.

Lemma first_false (f : nat -> bool) (n : nat) :
  (forall i, (i < n)%nat -> f i = true)
  \/ exists k, (k < n)%nat /\ (forall i, (i < k)%nat -> f i = true) /\ f k = false.
Proof.
  induction n as [|n [Hall|(k & Hk & Hb & Hf)]].
  - left. intros i Hi. lia.
  - destruct (f n) eqn:E.
    + left. intros i Hi. destruct (Nat.eq_dec i n) as [->|]; [exact E|]. apply Hall. lia.
    + right. exists n. split; [lia|]. split; [exact Hall|exact E].
  - right. exists k. split; [lia|]. split; [exact Hb|exact Hf].
Qed.

(** When [read::run] returns [Ok] (whatever the reason for which it could
    have failed), the source was a non-empty block device, the flag read
    [true] at every 1 MiB chunk boundary, the image file holds exactly the
    device's bytes, no other file changed, and the callback saw the total
    size, then the bytes copied after each chunk. *)
Theorem read_ok_copies_device (st : state) (dev img : string) :
  dev <> img ->
  (forall d, st_fs st !! img <> Some (BlockDev d)) ->
  fst (Read.run dev img st) = Ok tt ->
  exists data,
    st_fs st !! dev = Some (BlockDev data) /\ 0 < zlen data
    /\ (forall i, (i < nchunks (zlen data))%nat -> st_running st (st_polls st + i) = true)
    /\ st_fs (snd (Read.run dev img st)) = <[img := RegFile data]> (st_fs st)
    /\ st_trace (snd (Read.run dev img st)) = st_trace st ++ EvReadStart (zlen data) ::
         map (fun k : nat => EvReadProgress (Z.min (Z.of_nat k * BUFFER_SIZE) (zlen data)))
             (seq 1 (nchunks (zlen data))).
Proof.
  intros Hne Himg Hok.
  destruct (st_fs st !! dev) as [[d|data]|] eqn:Ed;
    [revert Hok; unfold Read.run; munfold; simpl; rewrite Ed; simpl; rewrite Ed; simpl;
       intros H; discriminate H| |
     revert Hok; unfold Read.run; munfold; simpl; rewrite Ed; simpl; intros H; discriminate H].
  exists data.
  assert (Hpos : 0 < zlen data).
  { destruct (Z.eq_dec (zlen data) 0) as [Hz|Hz]; [|unfold zlen in *; lia].
    revert Hok. unfold Read.run. munfold. simpl. rewrite Ed. simpl. rewrite Ed. simpl.
    rewrite Hz. simpl. intros H; discriminate H. }
  destruct (first_false (fun i => st_running st (st_polls st + i)) (nchunks (zlen data)))
    as [Hall|(k & Hk & Hb & Hf)].
  - destruct (read_run_ok st dev img data Hne Ed Himg Hpos Hall) as (st' & Hr & Hf & Ht).
    rewrite Hr. cbn [snd]. auto.
  - exfalso. rewrite (read_run_cancelled st dev img data k Hne Ed Himg Hpos Hk Hb Hf) in Hok.
    discriminate Hok.
Qed.
End ReadMore.

Module WriteMore.
Import IO Write.
Ltac munfold :=
  unfold open_existing, read_exact, write_all, create, remove_file,
    blkgetsize64, metadata_len in *;
  unfold bind, io, poll, emit, ret, fail, get_fs, set_fs in *.

Lemma padded_size_ceil (x : Z) :
  0 <= x -> padded_size x = (x + 511) / 512 * 512.
Proof.
  intros Hx. unfold padded_size, block_size.
  destruct (x mod 512 =? 0) eqn:E; simpl.
  - apply Z.eqb_eq in E. Z.div_mod_to_equations. nia.
  - do 2 f_equal. lia.
Qed.

Lemma padded_size_ge (x : Z) : 0 <= x -> x <= padded_size x.
Proof. intros Hx. rewrite padded_size_ceil by lia. Z.div_mod_to_equations. nia. Qed.

Lemma padded_size_shift (k x : Z) :
  0 <= k -> 0 <= x -> padded_size (512 * k + x) = 512 * k + padded_size x.
Proof.
  intros Hk Hx. rewrite !padded_size_ceil by lia.
  replace (512 * k + x + 511) with ((x + 511) + k * 512) by lia.
  rewrite Z.div_add by lia. lia.
Qed.

Lemma padded_size_le_mult (x m : Z) :
  0 <= x <= 512 * m -> padded_size x <= 512 * m.
Proof.
  intros Hx. rewrite padded_size_ceil by lia. Z.div_mod_to_equations. nia.
Qed.

Lemma overwrite_dev (data dd : list byte) (w c q : nat) :
  (w + c <= length data)%nat -> (c <= q)%nat -> (w + q <= length dd)%nat ->
  overwrite (take w data ++ drop w dd) w (take c (drop w data) ++ repeat x00 (q - c))
  = take (w + c) data ++ repeat x00 (q - c) ++ drop (w + q) dd.
Proof.
  intros H1 H2 H3. unfold overwrite.
  assert (Hw : length (take w data) = w) by (rewrite length_take; lia).
  rewrite take_app_le by lia. rewrite take_ge by lia.
  rewrite length_app, Hw, length_drop.
  replace (w - (w + (length dd - w)))%nat with 0%nat by lia. simpl.
  rewrite length_app, length_take, length_drop, repeat_length.
  rewrite drop_app_ge by lia. rewrite Hw, drop_drop.
  replace (w + (w + (Nat.min c (length data - w) + (q - c)) - w))%nat with (w + q)%nat by lia.
  rewrite <- app_assoc, app_assoc, take_take_drop. reflexivity.
Qed.

Lemma write_loop_ok (img dev : string) (data dd : list byte) (fs0 : gmap string node) :
  img <> dev -> fs0 !! img = Some (RegFile data) ->
  padded_size (zlen data) <= zlen dd ->
  forall (fuel j : nat) (st : state),
  st_fs st = <[dev := BlockDev
      (take (Z.to_nat (Z.min (Z.of_nat j * BUFFER_SIZE) (zlen data))) data
       ++ repeat x00 (Z.to_nat (Z.min (Z.of_nat j * BUFFER_SIZE) (padded_size (zlen data))
                                - Z.min (Z.of_nat j * BUFFER_SIZE) (zlen data)))
       ++ drop (Z.to_nat (Z.min (Z.of_nat j * BUFFER_SIZE) (padded_size (zlen data)))) dd)]> fs0 ->
  zlen data <= Z.of_nat (j + fuel) * BUFFER_SIZE ->
  (forall i : nat, Z.of_nat (j + i) * BUFFER_SIZE < zlen data ->
                   st_running st (st_polls st + i) = true) ->
  exists st',
    write_loop fuel img dev (zlen data) (Z.min (Z.of_nat j * BUFFER_SIZE) (zlen data))
      (Z.min (Z.of_nat j * BUFFER_SIZE) (padded_size (zlen data))) st = (Ok tt, st')
    /\ st_fs st' = <[dev := BlockDev (data ++ repeat x00 (Z.to_nat (padded_size (zlen data) - zlen data))
                                      ++ drop (Z.to_nat (padded_size (zlen data))) dd)]> fs0
    /\ st_running st' = st_running st
    /\ st_polls st' = (st_polls st + (nchunks (zlen data) - j))%nat.
Proof.
  intros Hne Himg Hdd. induction fuel as [|fuel IH]; intros j st Hfs Hfuel Hrun.
  all: assert (HL : 0 <= zlen data) by (unfold zlen; lia).
  all: pose proof (padded_size_ge _ HL) as HPL.
  all: destruct (Z_lt_le_dec (Z.of_nat j * BUFFER_SIZE) (zlen data)) as [Hlt|Hge].
  2,4: assert (Hpj : padded_size (zlen data) <= Z.of_nat j * BUFFER_SIZE)
         by (replace (Z.of_nat j * BUFFER_SIZE) with (512 * (2048 * Z.of_nat j))
               by (unfold BUFFER_SIZE; lia);
             apply padded_size_le_mult; unfold BUFFER_SIZE in *; lia);
       rewrite !(Z.min_r (Z.of_nat j * BUFFER_SIZE)) in * by lia;
       exists st; cbn [write_loop]; destruct (zlen data <? zlen data) eqn:Eq;
       [apply Z.ltb_lt in Eq; lia|];
       split; [reflexivity|]; split;
       [rewrite Hfs; unfold zlen; rewrite Nat2Z.id, take_ge by lia; reflexivity|];
       split; [reflexivity|];
       replace (nchunks (zlen data) - j)%nat with 0%nat
         by (pose proof (proj2 (Z.nlt_ge _ _) Hge) as Hn;
             rewrite (ReadMore.chunk_lt_iff j _ HL) in Hn; lia);
       lia.
  - rewrite Nat.add_0_r in Hfuel. lia.
  - rewrite !Z.min_l in * by lia. cbn [write_loop].
    rewrite (proj2 (Z.ltb_lt _ _) Hlt).
    set (c := Z.min BUFFER_SIZE (zlen data - Z.of_nat j * BUFFER_SIZE)).
    assert (Hc : 0 < c <= BUFFER_SIZE) by (unfold c, BUFFER_SIZE in *; lia).
    specialize (Hrun 0%nat ltac:(rewrite Nat.add_0_r; exact Hlt)) as H0.
    rewrite Nat.add_0_r in H0.
    munfold. simpl. rewrite H0. simpl. rewrite Hfs.
    rewrite lookup_insert_ne by congruence. rewrite Himg. simpl.
    rewrite (proj2 (Z.leb_le _ _)) by (unfold c, BUFFER_SIZE in *; lia). simpl.
    rewrite lookup_insert_eq. simpl.
    assert (HjB : 0 <= Z.of_nat j * BUFFER_SIZE) by (unfold BUFFER_SIZE; lia).
    pose proof (padded_size_ge c ltac:(lia)) as Hpc.
    assert (Hnw : Z.of_nat j * BUFFER_SIZE + c = Z.min (Z.of_nat (S j) * BUFFER_SIZE) (zlen data))
      by (unfold c, BUFFER_SIZE in *; lia).
    assert (Hnp : Z.of_nat j * BUFFER_SIZE + padded_size c
                  = Z.min (Z.of_nat (S j) * BUFFER_SIZE) (padded_size (zlen data))).
    { unfold c. destruct (Z_lt_le_dec (zlen data - Z.of_nat j * BUFFER_SIZE) BUFFER_SIZE) as [Hs|Hs].
      - rewrite Z.min_r by lia.
        replace (zlen data) with (512 * (2048 * Z.of_nat j) + (zlen data - Z.of_nat j * BUFFER_SIZE)) at 2
          by (unfold BUFFER_SIZE; lia).
        rewrite padded_size_shift by lia.
        pose proof (padded_size_le_mult (zlen data) (2048 * Z.of_nat (S j))
                      ltac:(unfold BUFFER_SIZE in *; lia)) as Hm.
        pose proof (padded_size_shift (2048 * Z.of_nat j) (zlen data - Z.of_nat j * BUFFER_SIZE)
                      ltac:(lia) ltac:(lia)) as Hsh.
        replace (512 * (2048 * Z.of_nat j) + (zlen data - Z.of_nat j * BUFFER_SIZE)) with (zlen data)
          in Hsh by (unfold BUFFER_SIZE; lia).
        unfold BUFFER_SIZE in *; lia.
      - rewrite Z.min_l by lia. rewrite WriteFacts.padded_size_full. unfold BUFFER_SIZE in *; lia. }
    assert (Hlen : zlen (take (Z.to_nat c) (drop (Z.to_nat (Z.of_nat j * BUFFER_SIZE)) data) ++
                         repeat x00 (Z.to_nat (padded_size c - c))) = padded_size c).
    { unfold zlen. rewrite length_app, length_take, length_drop, repeat_length.
      unfold zlen, c in *. lia. }
    assert (Hcur : zlen (take (Z.to_nat (Z.of_nat j * BUFFER_SIZE)) data ++
                         repeat x00 (Z.to_nat (Z.of_nat j * BUFFER_SIZE - Z.of_nat j * BUFFER_SIZE)) ++
                         drop (Z.to_nat (Z.of_nat j * BUFFER_SIZE)) dd) = zlen dd).
    { rewrite Z.sub_diag. unfold zlen. simpl. rewrite length_app, length_take, length_drop.
      unfold zlen in *. lia. }
    rewrite Hlen, Hcur.
    rewrite (proj2 (Z.leb_le _ _)) by lia. simpl.
    rewrite insert_insert, Hnw, Hnp.
    match goal with
    | |- exists st', write_loop fuel img dev _ _ _ ?s = _ /\ _ =>
        destruct (IH (S j) s) as (st' & Hr & Hf & Hrn & Hp)
    end.
    + cbn [st_fs]. rewrite <- Hnw, <- Hnp.
      replace (Z.of_nat j * BUFFER_SIZE + padded_size c - (Z.of_nat j * BUFFER_SIZE + c))
        with (padded_size c - c) by lia.
      rewrite Z.sub_diag. simpl.
      rewrite !Z2Nat.inj_add by lia. rewrite Z2Nat.inj_sub by lia.
      rewrite overwrite_dev; [|unfold zlen, c in *; lia..].
      destruct (decide (dev = dev)) as [_|]; [reflexivity|congruence].
    + rewrite Nat.add_succ_l, <- Nat.add_succ_r. exact Hfuel.
    + intros i Hi. simpl. replace (S (st_polls st + i)) with (st_polls st + S i)%nat by lia.
      apply Hrun. replace (j + S i)%nat with (S j + i)%nat by lia. exact Hi.
    + exists st'. split; [exact Hr|]. split; [exact Hf|]. split; [exact Hrn|].
      rewrite Hp. simpl.
      pose proof (proj1 (ReadMore.chunk_lt_iff j _ HL) Hlt) as Hj. lia.
Qed.

Lemma write_stage_ok (img dev : string) (data dd : list byte) (st : state) :
  img <> dev -> st_fs st !! img = Some (RegFile data) -> st_fs st !! dev = Some (BlockDev dd) ->
  padded_size (zlen data) <= zlen dd ->
  (forall i : nat, (i < nchunks (zlen data))%nat -> st_running st (st_polls st + i) = true) ->
  exists st',
    write_stage img dev (zlen data) st = (Ok tt, st')
    /\ st_fs st' = <[dev := BlockDev (data ++ repeat x00 (Z.to_nat (padded_size (zlen data) - zlen data))
                                      ++ drop (Z.to_nat (padded_size (zlen data))) dd)]> (st_fs st)
    /\ st_running st' = st_running st
    /\ st_polls st' = (st_polls st + nchunks (zlen data))%nat.
Proof.
  intros Hne Hi Hd Hdd Hrun.
  assert (HL : 0 <= zlen data) by (unfold zlen; lia).
  assert (HPL := padded_size_ge _ HL).
  assert (Hf : zlen data <= Z.of_nat (nchunks (zlen data)) * BUFFER_SIZE).
  { destruct (Z.eq_dec (zlen data) 0) as [->|]; [unfold BUFFER_SIZE; lia|].
    apply WriteFacts.nchunks_enough; lia. }
  destruct (write_loop_ok img dev data dd (st_fs st) Hne Hi Hdd (nchunks (zlen data)) 0 st)
    as (st' & Hr & Hfs & Hrn & Hp).
  - change (Z.of_nat 0 * BUFFER_SIZE) with 0. rewrite !Z.min_l by lia. simpl.
    rewrite insert_id by exact Hd. reflexivity.
  - exact Hf.
  - intros i Hi'. apply Hrun. apply ReadMore.chunk_lt_iff; [exact HL|exact Hi'].
  - change (Z.of_nat 0 * BUFFER_SIZE) with 0 in Hr. rewrite !Z.min_l in Hr by lia.
    exists st'. unfold write_stage. rewrite Nat.sub_0_r in Hp. auto.
Qed.

Lemma verify_stage_ok (digest : list byte -> list byte) (st : state)
    (img dev : string) (L : Z) (NI ND : node) :
  st_fs st !! img = Some NI -> st_fs st !! dev = Some ND -> 0 <= L ->
  L <= zlen (node_data NI) -> L <= zlen (node_data ND) ->
  take (Z.to_nat L) (node_data NI) = take (Z.to_nat L) (node_data ND) ->
  (forall i : nat, (i < nchunks L)%nat -> st_running st (st_polls st + i) = true) ->
  exists st', verify_stage digest img dev L st = (Ok tt, st') /\ st_fs st' = st_fs st.
Proof.
  intros Hi Hd HL HLi HLd Heq Hrun. unfold verify_stage.
  unfold open_existing, bind, io, get_fs, emit, ret, fail. simpl.
  rewrite Hi. simpl. rewrite Hd. simpl.
  set (st1 := {| st_fs := st_fs st; st_running := st_running st;
                 st_polls := st_polls st; st_trace := st_trace st ++ [EvVerifyStart L] |}).
  pose proof (WriteFacts.verify_loop_spec img dev L NI ND (nchunks L) L [] [] st1) as H.
  simpl in H. specialize (H Hi Hd).
  rewrite Z.sub_diag in H. unfold zlen in H.
  specialize (H ltac:(lia) ltac:(lia) ltac:(lia) eq_refl eq_refl).
  assert (Hf : L <= Z.of_nat (nchunks L) * BUFFER_SIZE).
  { destruct (Z.eq_dec L 0) as [->|]; [unfold BUFFER_SIZE; lia|apply WriteFacts.nchunks_enough; lia]. }
  destruct (verify_loop (nchunks L) img dev L L [] [] st1) as [[[fi fd]|e] st'].
  - destruct H as [Hfs (evs & Htr & Hin & Hok & Hcomp)].
    destruct (Hok fi fd eq_refl Hf) as (-> & -> & _).
    rewrite Heq, bool_decide_eq_true_2 by reflexivity. simpl. exists st'. auto.
  - destruct H as [Hfs (evs & Htr & Hin & Hok & Hcomp)].
    destruct (Hcomp Hf HLi HLd) as (? & ? & Hx); [|discriminate Hx].
    intros i Hi'. apply Hrun. apply ReadMore.chunk_lt_iff; [exact HL|exact Hi'].
Qed.

(** [write::run] on an image with no compression extension, a device at
    least as large as the image rounded up to 512 bytes, and no
    cancellation: it succeeds, with or without verification, and its only
    effect on the files is that the device now holds the image, zeros up to
    the next 512-byte boundary, then its previous contents. *)
Theorem write_plain_image_ok (digest : list byte -> list byte)
    (decode : codec -> list byte -> list byte * option io_kind)
    (st : state) (img dev : string) (data dd : list byte) (verify : bool) :
  img <> dev -> st_fs st !! img = Some (RegFile data) -> st_fs st !! dev = Some (BlockDev dd) ->
  select_codec (ext_of img) = None ->
  padded_size (zlen data) <= zlen dd ->
  (forall i : nat, (i < (if verify then 2 else 1) * nchunks (zlen data))%nat ->
                   st_running st (st_polls st + i) = true) ->
  exists st',
    Write.run digest decode img dev verify st = (Ok tt, st')
    /\ st_fs st' = <[dev := BlockDev (data ++ repeat x00 (Z.to_nat (padded_size (zlen data) - zlen data))
                                      ++ drop (Z.to_nat (padded_size (zlen data))) dd)]> (st_fs st).
Proof.
  intros Hne Hi Hd Hs Hdd Hrun.
  assert (HL : 0 <= zlen data) by (unfold zlen; lia).
  assert (HPL := padded_size_ge _ HL).
  set (st1 := {| st_fs := st_fs st; st_running := st_running st; st_polls := st_polls st;
                 st_trace := st_trace st ++ [EvDecompressStart] |}).
  set (st2 := {| st_fs := st_fs st; st_running := st_running st; st_polls := st_polls st;
                 st_trace := (st_trace st ++ [EvDecompressStart]) ++ [EvWriteStart (zlen data)] |}).
  destruct (write_stage_ok img dev data dd st2 Hne Hi Hd Hdd) as (st3 & Hw & Hfs3 & Hrn3 & Hp3).
  { intros i Hi'. apply Hrun. destruct verify; lia. }
  set (newdd := data ++ repeat x00 (Z.to_nat (padded_size (zlen data) - zlen data))
                  ++ drop (Z.to_nat (padded_size (zlen data))) dd) in *.
  assert (Hrest : exists st4, (if verify then verify_stage digest img dev (zlen data) else ret tt) st3
                              = (Ok tt, st4) /\ st_fs st4 = st_fs st3).
  { destruct verify; [|exists st3; auto].
    apply (verify_stage_ok digest st3 img dev (zlen data) (RegFile data) (BlockDev newdd)).
    - rewrite Hfs3, lookup_insert_ne by congruence. exact Hi.
    - rewrite Hfs3. apply lookup_insert_eq.
    - exact HL.
    - simpl. lia.
    - simpl. unfold newdd, zlen. rewrite length_app. lia.
    - simpl. unfold newdd, zlen. rewrite Nat2Z.id, take_app_length, take_ge by lia. reflexivity.
    - intros i Hi'. rewrite Hp3, Hrn3. simpl.
      replace (st_polls st + nchunks (zlen data) + i)%nat
        with (st_polls st + (nchunks (zlen data) + i))%nat by lia.
      apply Hrun. lia. }
  destruct Hrest as (st4 & Hv & Hfs4).
  exists st4. unfold Write.run.
  unfold bind at 1, emit at 1. simpl. fold st1.
  rewrite (DecompressFacts.decompress_passthrough decode img st1 (RegFile data) Hi Hs).
  unfold write_and_verify. simpl.
  unfold open_existing, metadata_len, bind, io, get_fs, emit, ret, fail. simpl.
  rewrite Hi. simpl. rewrite Hi. simpl. rewrite Hd. simpl. fold st2. rewrite Hw.
  unfold ret in Hv. rewrite Hv. simpl. rewrite Hfs4, Hfs3. auto.
Qed.
End WriteMore.

Module TempFacts.
Import IO Write.

Lemma append_cancel_l (p a b : string) : (p +:+ a = p +:+ b)%string -> a = b.
Proof.
  induction p as [|c p IH]; [exact id|].
  rewrite !StrFacts.append_cons. intros H. injection H as H. exact (IH H).
Qed.

Lemma temp_name_inj (n m : nat) :
  ("/tmp/.tmp" +:+ NilEmpty.string_of_uint (Nat.to_uint n))%string
  = ("/tmp/.tmp" +:+ NilEmpty.string_of_uint (Nat.to_uint m))%string -> n = m.
Proof.
  intros H. apply append_cancel_l in H.
  apply DecimalNat.Unsigned.to_uint_inj.
  pose proof (NilEmpty.usu (Nat.to_uint n)) as Hn.
  pose proof (NilEmpty.usu (Nat.to_uint m)) as Hm.
  rewrite H, Hm in Hn. congruence.
Qed.

Lemma fresh_temp_from_cases (fs : gmap string node) (fuel n : nat) :
  fs !! fresh_temp_from fs fuel n = None
  \/ (forall i, (i <= fuel)%nat ->
        is_Some (fs !! ("/tmp/.tmp" +:+ NilEmpty.string_of_uint (Nat.to_uint (n + i)))%string)).
Proof.
  revert n. induction fuel as [|fuel IH]; intros n; simpl;
    set (p := ("/tmp/.tmp" +:+ NilEmpty.string_of_uint (Nat.to_uint n))%string).
  - destruct (fs !! p) eqn:E; [right|left; reflexivity].
    intros i Hi. assert (i = 0%nat) as -> by lia. rewrite Nat.add_0_r; unfold p in E; rewrite E; eauto.
  - destruct (fs !! p) eqn:E; [|left; first [reflexivity|exact E]].
    destruct (IH (S n)) as [H|H]; [left; exact H|right].
    intros [|i] Hi.
    + rewrite Nat.add_0_r; unfold p in E; rewrite E; eauto.
    + replace (n + S i)%nat with (S n + i)%nat by lia. apply H. lia.
Qed.

Lemma fresh_temp_fresh (fs : gmap string node) :
  fs !! fresh_temp_from fs (S (size fs)) 0 = None.
Proof.
  destruct (fresh_temp_from_cases fs (S (size fs)) 0) as [H|H]; [exact H|exfalso].
  set (names := (fun i : nat => ("/tmp/.tmp" +:+ NilEmpty.string_of_uint (Nat.to_uint i))%string)
                  <$> seq 0 (S (S (size fs)))).
  assert (Hnd : NoDup names).
  { apply NoDup_fmap_2; [|apply NoDup_seq].
    intros a b Hab. exact (temp_name_inj a b Hab). }
  assert (Hsub : list_to_set names ⊆ dom fs).
  { intros x Hx. apply elem_of_list_to_set in Hx. unfold names in Hx.
    apply list_elem_of_fmap in Hx as (i & -> & Hi).
    apply elem_of_seq in Hi. apply elem_of_dom. apply (H i). lia. }
  apply subseteq_size in Hsub.
  rewrite size_list_to_set in Hsub by exact Hnd.
  rewrite size_dom in Hsub. unfold names in Hsub.
  rewrite length_fmap, length_seq in Hsub. lia.
Qed.
End TempFacts.
Module DecompMore.
Import IO Write.
Ltac munfold :=
  unfold open_existing, read_exact, write_all, create, remove_file,
    blkgetsize64, metadata_len in *;
  unfold bind, io, poll, emit, ret, fail, get_fs, set_fs in *.

Lemma decompress_loop_spec (tmp : string) (out : list byte) (err : option io_kind)
    (fs0 : gmap string node) (f : nat) :
  forall (t : nat) (st : state),
  st_fs st = <[tmp := RegFile (take t out)]> fs0 ->
  (t <= length out)%nat ->
  zlen out - Z.of_nat t + DECOMPRESS_BUFFER <= Z.of_nat f * DECOMPRESS_BUFFER ->
  let '(r, st') := decompress_loop f tmp (drop t out) err (Z.of_nat t) st in
  (st_running st' = st_running st /\ (st_polls st <= st_polls st')%nat)
  /\ (exists d, st_fs st' = <[tmp := RegFile d]> fs0)
  /\ (r = Ok tt -> err = None /\ st_fs st' = <[tmp := RegFile out]> fs0)
  /\ ((forall i : nat, st_running st (st_polls st + i) = true) ->
      r = match err with Some k => Err k | None => Ok tt end
      /\ st_fs st' = <[tmp := RegFile out]> fs0).
Proof.
  induction f as [|f IH]; intros t st Hfs Ht Hf.
  - unfold zlen, DECOMPRESS_BUFFER in Hf. lia.
  - destruct (Nat.eq_dec t (length out)) as [->|Hlt].
    + rewrite drop_all, (take_ge out (length out)) in * by lia.
      cbn [decompress_loop]. munfold. simpl.
      destruct (st_running st (st_polls st)) eqn:Er; simpl.
      * destruct err as [k|]; simpl; (split; [split; [reflexivity|lia]|]).
        -- split; [eauto|]. split; [intros H; discriminate H|]. auto.
        -- split; [eauto|]. auto.
      * split; [split; [reflexivity|lia]|].
        split; [eauto|]. split; [intros H; discriminate H|].
        intros Hrun. specialize (Hrun 0%nat). rewrite Nat.add_0_r, Er in Hrun. discriminate Hrun.
    + cbn [decompress_loop]. munfold. cbn -[decompress_loop].
      destruct (drop t out) as [|b rest] eqn:Ed.
      { exfalso. apply (f_equal length) in Ed. rewrite length_drop in Ed. simpl in Ed. lia. }
      rewrite <- Ed.
      destruct (st_running st (st_polls st)) eqn:Er; cbn -[decompress_loop].
      2:{ split; [split; [reflexivity|lia]|].
          split; [eauto|]. split; [intros H; discriminate H|].
          intros Hrun. specialize (Hrun 0%nat). rewrite Nat.add_0_r, Er in Hrun. discriminate Hrun. }
      rewrite Hfs, lookup_insert_eq. cbn -[decompress_loop]. rewrite insert_insert.
      set (n := Z.min DECOMPRESS_BUFFER (zlen (drop t out))).
      assert (Hn : 0 < n <= DECOMPRESS_BUFFER /\ Z.of_nat t + n <= zlen out).
      { unfold n, zlen, DECOMPRESS_BUFFER in *. rewrite length_drop. lia. }
      assert (Hn2 : n = DECOMPRESS_BUFFER \/ n = zlen out - Z.of_nat t).
      { unfold n, zlen, DECOMPRESS_BUFFER in *. rewrite length_drop. lia. }
      assert (Hw : overwrite (take t out) (Z.to_nat (Z.of_nat t)) (take (Z.to_nat n) (drop t out))
                   = take (t + Z.to_nat n) out).
      { rewrite Nat2Z.id. apply ReadMore.overwrite_take. unfold zlen in Hn. lia. }
      rewrite Hw, drop_drop.
      replace (Z.of_nat t + n) with (Z.of_nat (t + Z.to_nat n)) by lia.
      destruct (decide (tmp = tmp)) as [_|]; [|congruence].
      match goal with
      | |- context [decompress_loop f tmp _ err _ ?s] =>
          pose proof (IH (t + Z.to_nat n)%nat s) as H
      end.
      cbn [st_fs st_running st_polls] in H.
      specialize (H eq_refl ltac:(unfold zlen in Hn; lia)
                    ltac:(unfold zlen, DECOMPRESS_BUFFER in *; lia)).
      destruct (decompress_loop f tmp _ err _ _) as [r st'].
      destruct H as ([Hrn Hp] & Hd & Hok & Hall).
      split; [split; [exact Hrn|lia]|].
      split; [exact Hd|]. split; [exact Hok|].
      intros Hrun. apply Hall. intros i.
      replace (S (st_polls st) + i)%nat with (st_polls st + S i)%nat by lia. apply Hrun.
Qed.

Lemma decompress_image_spec (decode : codec -> list byte -> list byte * option io_kind)
    (p : string) (st : state) (nd : node) (c : codec) :
  st_fs st !! p = Some nd -> select_codec (ext_of p) = Some c ->
  let tmp := fresh_temp_from (st_fs st) (S (size (st_fs st))) 0 in
  let '(r, st') := decompress_image decode p st in
  st_fs st !! tmp = None
  /\ (st_running st' = st_running st /\ (st_polls st <= st_polls st')%nat)
  /\ (forall e, r = Err e -> st_fs st' = st_fs st)
  /\ (forall im, r = Ok im ->
        im = mkImage tmp (Some tmp) /\ snd (decode c (node_data nd)) = None
        /\ st_fs st' = <[tmp := RegFile (fst (decode c (node_data nd)))]> (st_fs st))
  /\ ((forall i : nat, st_running st (st_polls st + i) = true) ->
      r = match snd (decode c (node_data nd)) with
          | Some k => Err k
          | None => Ok (mkImage tmp (Some tmp))
          end).
Proof.
  intros Hp Hs tmp. pose proof (TempFacts.fresh_temp_fresh (st_fs st)) as Hfresh. fold tmp in Hfresh.
  unfold decompress_image. rewrite Hs.
  unfold open_existing, read_all, named_temp_file_new, guard_temp, drop_temp,
    get_fs, set_fs, ret, fail.
  unfold bind. cbn -[fresh_temp_from decompress_loop].
  rewrite Hp. cbn -[fresh_temp_from decompress_loop]. rewrite Hp. cbn -[fresh_temp_from decompress_loop].
  destruct (decode c (node_data nd)) as [out err] eqn:Ed. cbn -[fresh_temp_from decompress_loop].
  fold tmp.
  set (st1 := {| st_fs := <[tmp := RegFile []]> (st_fs st); st_running := st_running st;
                 st_polls := st_polls st; st_trace := st_trace st |}).
  pose proof (DecompMore.decompress_loop_spec tmp out err (st_fs st)
                (S (Z.to_nat ((zlen out + DECOMPRESS_BUFFER - 1) / DECOMPRESS_BUFFER))) 0 st1
                eq_refl ltac:(lia)) as H.
  cbn -[fresh_temp_from decompress_loop] in H.
  assert (HL : 0 <= zlen out) by (unfold zlen; lia).
  match type of H with ?a -> _ => assert (Hfuel : a) end.
  { unfold DECOMPRESS_BUFFER. rewrite Nat2Z.inj_succ, Z2Nat.id by (apply Z.div_pos; lia).
    Z.div_mod_to_equations. nia. }
  specialize (H Hfuel).
  change (drop 0 out) with out in H. change (Z.of_nat 0) with 0 in H.
  destruct (decompress_loop _ tmp out err 0 st1) as [r st'].
  destruct H as ([Hrn Hpl] & Hd & Hok & Hall).
  destruct r as [[]|e]; cbn.
  - split; [exact Hfresh|]. split; [split; [exact Hrn|exact Hpl]|]. split; [intros e He; discriminate He|]. split.
    + intros im Him. injection Him as <-. destruct (Hok eq_refl) as [-> Hf]. auto.
    + intros Hrun. destruct (Hall Hrun) as [Hr _]. destruct err; [discriminate Hr|reflexivity].
  - split; [exact Hfresh|]. split; [split; [exact Hrn|exact Hpl]|]. split.
    + intros e' _. destruct Hd as [d ->]. apply delete_insert_id. exact Hfresh.
    + split; [intros im Him; discriminate Him|].
      intros Hrun. destruct (Hall Hrun) as [Hr _]. destruct err; [congruence|discriminate Hr].
Qed.


End DecompMore.

Module FrameFacts.
Import IO Read Write.

Section Frame.
Variable k : string.

Lemma bind_keeps {E A B} (m : M E A) (f : A -> M E B) :
  (forall st, st_fs (snd (m st)) !! k = st_fs st !! k) ->
  (forall a st, st_fs (snd (f a st)) !! k = st_fs st !! k) ->
  forall st, st_fs (snd (bind m f st)) !! k = st_fs st !! k.
Proof.
  intros Hm Hf st. unfold bind. specialize (Hm st).
  destruct (m st) as [[a|e] st']; simpl in *; [rewrite Hf|]; exact Hm.
Qed.

Lemma io_keeps {A} (m : M io_kind A) :
  (forall st, st_fs (snd (m st)) !! k = st_fs st !! k) ->
  forall st, st_fs (snd (io m st)) !! k = st_fs st !! k.
Proof.
  intros Hm st. unfold io. specialize (Hm st). destruct (m st) as [[a|e] st']; exact Hm.
Qed.

Lemma ret_keeps {E A} (a : A) st : st_fs (snd (ret (E := E) a st)) !! k = st_fs st !! k.
Proof. reflexivity. Qed.

Lemma fail_keeps {E A} (e : E) st : st_fs (snd (fail (A := A) e st)) !! k = st_fs st !! k.
Proof. reflexivity. Qed.

Lemma poll_keeps {E} st : st_fs (snd (poll (E := E) st)) !! k = st_fs st !! k.
Proof. reflexivity. Qed.

Lemma emit_keeps {E} ev st : st_fs (snd (emit (E := E) ev st)) !! k = st_fs st !! k.
Proof. reflexivity. Qed.

Lemma open_existing_keeps p st : st_fs (snd (open_existing p st)) !! k = st_fs st !! k.
Proof. unfold open_existing, bind, get_fs. simpl. destruct (st_fs st !! p); reflexivity. Qed.

Lemma read_exact_keeps p pos n st : st_fs (snd (read_exact p pos n st)) !! k = st_fs st !! k.
Proof.
  unfold read_exact, bind, get_fs. simpl.
  destruct (st_fs st !! p); [|reflexivity]. destruct (_ <=? _); reflexivity.
Qed.

Lemma metadata_len_keeps p st : st_fs (snd (metadata_len p st)) !! k = st_fs st !! k.
Proof. unfold metadata_len, bind, get_fs. simpl. destruct (st_fs st !! p) as [[]|]; reflexivity. Qed.

Lemma blkgetsize64_keeps p st : st_fs (snd (blkgetsize64 p st)) !! k = st_fs st !! k.
Proof. unfold blkgetsize64, bind, get_fs. simpl. destruct (st_fs st !! p) as [[]|]; reflexivity. Qed.


Lemma write_all_keeps p pos bs st :
  k <> p -> st_fs (snd (write_all p pos bs st)) !! k = st_fs st !! k.
Proof.
  intros Hne. unfold write_all, bind, get_fs, set_fs, fail. simpl.
  destruct (st_fs st !! p) as [[d|d]|]; simpl; try reflexivity.
  - apply lookup_insert_ne. congruence.
  - destruct (_ <=? _); simpl; [apply lookup_insert_ne; congruence|reflexivity].
Qed.

Lemma create_keeps p st : k <> p -> st_fs (snd (create p st)) !! k = st_fs st !! k.
Proof.
  intros Hne. unfold create, bind, get_fs, set_fs, ret. simpl.
  destruct (st_fs st !! p) as [[d|d]|]; simpl; try reflexivity; apply lookup_insert_ne; congruence.
Qed.

Lemma remove_file_keeps p st : k <> p -> st_fs (snd (remove_file p st)) !! k = st_fs st !! k.
Proof.
  intros Hne. unfold remove_file, bind, get_fs, set_fs, fail. simpl.
  destruct (st_fs st !! p); simpl; [apply lookup_delete_ne; congruence|reflexivity].
Qed.

Ltac keeps :=
  repeat match goal with
  | |- forall _, _ => intros
  | |- st_fs (snd (bind _ _ _)) !! _ = _ => apply bind_keeps
  | |- st_fs (snd (io _ _)) !! _ = _ => apply io_keeps
  | |- st_fs (snd (ret _ _)) !! _ = _ => apply ret_keeps
  | |- st_fs (snd (fail _ _)) !! _ = _ => apply fail_keeps
  | |- st_fs (snd (poll _)) !! _ = _ => apply poll_keeps
  | |- st_fs (snd (emit _ _)) !! _ = _ => apply emit_keeps
  | |- st_fs (snd (open_existing _ _)) !! _ = _ => apply open_existing_keeps
  | |- st_fs (snd (read_exact _ _ _ _)) !! _ = _ => apply read_exact_keeps
  | |- st_fs (snd (metadata_len _ _)) !! _ = _ => apply metadata_len_keeps
  | |- st_fs (snd (blkgetsize64 _ _)) !! _ = _ => apply blkgetsize64_keeps
  | |- st_fs (snd (write_all _ _ _ _)) !! _ = _ => apply write_all_keeps; congruence
  | |- st_fs (snd (create _ _)) !! _ = _ => apply create_keeps; congruence
  | |- st_fs (snd (remove_file _ _)) !! _ = _ => apply remove_file_keeps; congruence
  | |- st_fs (snd ((if ?b then _ else _) _)) !! _ = _ => destruct b
  | |- st_fs (snd ((match ?x with _ => _ end) _)) !! _ = _ => destruct x
  | |- _ => progress cbv beta
  end.

Lemma read_loop_keeps (dev img : string) (L : Z) (fuel : nat) :
  k <> img -> forall t st, st_fs (snd (read_loop fuel dev img L t st)) !! k = st_fs st !! k.
Proof.
  intros Hne. induction fuel as [|fuel IH]; intros t st; cbn [read_loop].
  - destruct (t <? L); reflexivity.
  - destruct (t <? L); [|reflexivity]. keeps. apply IH.
Qed.

Lemma run_read_keeps (dev img : string) st :
  k <> img -> st_fs (snd (Read.run dev img st)) !! k = st_fs st !! k.
Proof.
  intros Hne. unfold Read.run. keeps. apply read_loop_keeps. exact Hne.
Qed.

Lemma write_loop_keeps (img dev : string) (L : Z) (fuel : nat) :
  k <> dev -> forall w pos st,
  st_fs (snd (write_loop fuel img dev L w pos st)) !! k = st_fs st !! k.
Proof.
  intros Hne. induction fuel as [|fuel IH]; intros w pos st; cbn [write_loop].
  - destruct (w <? L); reflexivity.
  - destruct (w <? L); [|reflexivity]. keeps. apply IH.
Qed.

Lemma verify_loop_keeps (img dev : string) (L : Z) (fuel : nat) :
  forall rem fi fd st,
  st_fs (snd (verify_loop fuel img dev L rem fi fd st)) !! k = st_fs st !! k.
Proof.
  induction fuel as [|fuel IH]; intros rem fi fd st; cbn [verify_loop].
  - destruct (0 <? rem); reflexivity.
  - destruct (0 <? rem); [|reflexivity]. keeps. apply IH.
Qed.

Lemma write_and_verify_keeps (digest : list byte -> list byte) (im : decompressed_image)
    (dev : string) (verify : bool) st :
  k <> dev -> st_fs (snd (write_and_verify digest im dev verify st)) !! k = st_fs st !! k.
Proof.
  intros Hne. unfold write_and_verify, write_stage, verify_stage. keeps.
  - apply write_loop_keeps. exact Hne.
  - apply verify_loop_keeps.
Qed.

Lemma decompress_loop_keeps (tmp : string) (fuel : nat) :
  k <> tmp -> forall out err total st,
  st_fs (snd (decompress_loop fuel tmp out err total st)) !! k = st_fs st !! k.
Proof.
  intros Hne. induction fuel as [|fuel IH]; intros out err total st; cbn [decompress_loop].
  - reflexivity.
  - keeps. apply IH.
Qed.
End Frame.

Lemma decompress_image_missing (decode : codec -> list byte -> list byte * option io_kind)
    (p : string) (st : state) :
  st_fs st !! p = None -> decompress_image decode p st = (Err NotFound, st).
Proof.
  intros Hp. unfold decompress_image, open_existing, get_fs, fail, bind. simpl.
  rewrite Hp. reflexivity.
Qed.

Lemma run_write_keeps (digest : list byte -> list byte)
    (decode : codec -> list byte -> list byte * option io_kind)
    (img dev : string) (verify : bool) (st : state) (k : string) :
  k <> dev ->
  st_fs (snd (Write.run digest decode img dev verify st)) !! k = st_fs st !! k.
Proof.
  intros Hne. unfold Write.run. unfold bind at 1, emit at 1.
  cbn -[decompress_image write_and_verify drop_image].
  set (st1 := {| st_fs := st_fs st; st_running := st_running st; st_polls := st_polls st;
                 st_trace := st_trace st ++ [EvDecompressStart] |}).
  destruct (st_fs st !! img) as [nd|] eqn:Hi.
  2:{ rewrite (decompress_image_missing decode img st1 Hi). reflexivity. }
  destruct (select_codec (ext_of img)) as [c|] eqn:Hs.
  - pose proof (DecompMore.decompress_image_spec decode img st1 nd c Hi Hs) as H.
    cbv zeta in H. cbn [st_fs st1] in H.
    set (tmp := fresh_temp_from (st_fs st) (S (size (st_fs st))) 0) in H.
    destruct (decompress_image decode img st1) as [[im|e] st2].
    + destruct H as (Hfresh & _ & _ & Hok & _).
      destruct (Hok im eq_refl) as (-> & _ & Hfs2).
      destruct (write_and_verify digest _ dev verify st2) as [r st3] eqn:Ew.
      pose proof (write_and_verify_keeps k digest (mkImage tmp (Some tmp)) dev verify st2 Hne) as Hk.
      rewrite Ew in Hk. cbn [snd] in Hk.
      unfold drop_image, drop_temp, get_fs, set_fs, bind. cbn -[fresh_temp_from].
      destruct (decide (k = tmp)) as [->|Hkt].
      * rewrite lookup_delete_eq. symmetry. exact Hfresh.
      * rewrite lookup_delete_ne by congruence. rewrite Hk, Hfs2.
        apply lookup_insert_ne. congruence.
    + destruct H as (_ & _ & Herr & _). specialize (Herr e eq_refl).
      destruct e; cbn; rewrite Herr; reflexivity.
  - rewrite (DecompressFacts.decompress_passthrough decode img st1 nd Hi Hs).
    destruct (write_and_verify digest _ dev verify st1) as [r st3] eqn:Ew.
    pose proof (write_and_verify_keeps k digest (mkImage img None) dev verify st1 Hne) as Hk.
    rewrite Ew in Hk. exact Hk.
Qed.

(** [write::run] never changes any path but the device: whatever its
    outcome (error, cancellation, verification mismatch or success), every
    other path, the image included, ends as it started (a temporary file
    of decompression is removed again). *)
Theorem write_run_touches_only_device (digest : list byte -> list byte)
    (decode : codec -> list byte -> list byte * option io_kind)
    (img dev : string) (verify : bool) (st : state) (k : string) :
  k <> dev ->
  st_fs (snd (Write.run digest decode img dev verify st)) !! k = st_fs st !! k.
Proof. exact (run_write_keeps digest decode img dev verify st k). Qed.

(** [read::run] never changes any path but the image file: whatever its
    outcome, every other path, the device included, ends as it started. *)
Theorem read_run_touches_only_image (dev img : string) (st : state) (k : string) :
  k <> img -> st_fs (snd (Read.run dev img st)) !! k = st_fs st !! k.
Proof. intros Hne. exact (run_read_keeps k dev img st Hne). Qed.
End FrameFacts.

Module LinuxMore.
Import Str IO Device Linux.

Lemma probe_accepts (sys : sysfs) (disks : list disk) (parent n : string) :
  starts_with n "loop" = false -> path_eq (join "/dev/" n) parent = false ->
  is_removable sys n = true -> size_sectors sys n <> 0 ->
  probe sys disks parent n
  = Some (mkDevice (join "/dev/" n) n (size_gb_of (size_sectors sys n)) (find_mount_point disks n)).
Proof.
  intros H1 H2 H3 H4. unfold probe. rewrite H1, H2, H3. simpl.
  apply Z.eqb_neq in H4. rewrite H4. reflexivity.
Qed.

Lemma scan_complete (sys : sysfs) (disks : list disk) (parent : string)
    (es : list (res io_kind string)) (n : string) (d : device) :
  In (Ok n) es -> probe sys disks parent n = Some d -> In d (scan sys disks parent es).
Proof.
  induction es as [|[m|k] es IH]; simpl; [tauto| |].
  - intros [Heq|Hin] Hp.
    + injection Heq as ->. rewrite Hp. left. reflexivity.
    + destruct (probe sys disks parent m); [right|]; exact (IH Hin Hp).
  - intros [Heq|Hin] Hp; [discriminate Heq|exact (IH Hin Hp)].
Qed.

Lemma find_system_disk_parent_none (disks : list disk) :
  find_system_disk_parent disks = None
  <-> forall d, In d disks -> path_eq (disk_mount_point d) "/" = false.
Proof.
  induction disks as [|d0 ds IH]; simpl; [split; [tauto|reflexivity]|].
  destruct (path_eq (disk_mount_point d0) "/") eqn:E; split.
  - discriminate.
  - intros H. rewrite (H d0 (or_introl eq_refl)) in E. discriminate E.
  - intros H d [<-|Hin]; [exact E|exact (proj1 IH H d Hin)].
  - intros H. apply IH. intros d Hin. exact (H d (or_intror Hin)).
Qed.

(** [get_removable_devices] returns every entry of [/sys/block] that
    passes its filters: when the system disk's parent is found and the
    directory can be listed, a listed name [n] that does not start with
    ["loop"], whose path [/dev/<n>] differs from the parent, whose
    [removable] file reads ["1"] and whose size is not zero is in the
    result, with its size and mount point as the code computes them. *)
Theorem removable_devices_complete (sys : sysfs) (disks : list disk)
    (parent : string) (entries : list (res io_kind string)) (n : string) :
  find_system_disk_parent disks = Some parent ->
  sys_block_entries sys = Ok entries -> In (Ok n) entries ->
  starts_with n "loop" = false -> path_eq (join "/dev/" n) parent = false ->
  is_removable sys n = true -> size_sectors sys n <> 0 ->
  exists devs, get_removable_devices sys disks = Ok devs
    /\ In (mkDevice (join "/dev/" n) n (size_gb_of (size_sectors sys n)) (find_mount_point disks n)) devs.
Proof.
  intros Hp He Hin H1 H2 H3 H4. unfold get_removable_devices. rewrite Hp, He.
  eexists. split; [reflexivity|].
  apply (scan_complete _ _ _ _ n); [exact Hin|]. apply probe_accepts; assumption.
Qed.

(** [get_removable_devices] fails with ["Could not determine system
    drive."] exactly when no disk of the list is mounted at a path equal
    (as a [Path]) to ["/"], and otherwise fails only when [/sys/block]
    cannot be listed, with that I/O error. *)
Theorem removable_devices_errors (sys : sysfs) (disks : list disk) :
  (get_removable_devices sys disks = Err (AnyMsg "Could not determine system drive.")
   <-> forall d, In d disks -> path_eq (disk_mount_point d) "/" = false)
  /\ (forall e, get_removable_devices sys disks = Err e ->
        e = AnyMsg "Could not determine system drive."
        \/ exists k, e = AnyIo k /\ sys_block_entries sys = Err k).
Proof.
  split.
  - rewrite <- find_system_disk_parent_none. unfold get_removable_devices.
    destruct (find_system_disk_parent disks); [|tauto].
    destruct (sys_block_entries sys); split; discriminate.
  - intros e. unfold get_removable_devices.
    destruct (find_system_disk_parent disks); [|intros H; injection H as <-; left; reflexivity].
    destruct (sys_block_entries sys) as [es|k]; [discriminate|].
    intros H. injection H as <-. right. exists k. split; reflexivity.
Qed.
End LinuxMore.

Module MainFacts.
Import Str IO Device Linux Main.

(** The CLI's [is_compressed] test agrees with the decoder choice of
    [decompress_image]: an image is treated as compressed exactly when its
    lowercased extension selects a codec ([gz], [gzip], [xz], [zst] or
    [zstd]). *)
Theorem is_compressed_iff_decoder (image : string) :
  is_compressed image
  = match Write.select_codec (Write.ext_of image) with Some _ => true | None => false end.
Proof.
  unfold is_compressed, Write.ext_of, Write.select_codec.
  destruct (Write.extension image) as [e|]; [|reflexivity].
  set (l := Str.to_lowercase e).
  destruct (String.eqb l "gz"), (String.eqb l "gzip"), (String.eqb l "xz"),
    (String.eqb l "zst"), (String.eqb l "zstd"); reflexivity.
Qed.

Lemma lift_any_keeps {A} (r : res anyhow_error A) (st : state) :
  snd (lift_any r st) = st.
Proof. destruct r; reflexivity. Qed.

Lemma select_device_spec (devices : list device) (sel : res anyhow_error nat) (st : state) :
  snd (select_device devices sel st) = st
  /\ forall d, fst (select_device devices sel st) = Ok d -> In d devices.
Proof.
  unfold select_device. destruct devices as [|d0 ds]; [split; [reflexivity|discriminate]|].
  destruct sel as [i|e]; [|split; [reflexivity|discriminate]].
  destruct (nth_error (d0 :: ds) i) as [d|] eqn:E; [|split; [reflexivity|discriminate]].
  split; [reflexivity|]. intros d' H. injection H as <-. exact (nth_error_In _ _ E).
Qed.

Lemma devices_come_from_probe_entries (sys : sysfs) (disks : list disk) (devs : list device) :
  get_removable_devices sys disks = Ok devs ->
  exists parent entries, find_system_disk_parent disks = Some parent
    /\ sys_block_entries sys = Ok entries
    /\ forall dv, In dv devs -> exists n, In (Ok n) entries /\ probe sys disks parent n = Some dv.
Proof.
  unfold get_removable_devices.
  destruct (find_system_disk_parent disks) as [parent|]; [|discriminate].
  destruct (sys_block_entries sys) as [es|]; [|discriminate].
  intros H. injection H as <-. exists parent, es. split; [reflexivity|]. split; [reflexivity|].
  intros dv Hin. exact (LinuxFacts.scan_in _ _ _ _ _ Hin).
Qed.

(** The [write] command changes the files only when the confirmation
    prompt answered yes, and only at one path: [/dev/<n>] for an entry [n]
    of [/sys/block] that does not start with ["loop"], is removable, has a
    non-zero size and is not (as a [Path]) the parent of the disk mounted
    at ["/"]. *)
Theorem write_command_target (digest : list byte -> list byte)
    (decode : Write.codec -> list byte -> list byte * option io_kind)
    (sys : sysfs) (disks : list disk) (image : string) (no_verify : bool) (ans : answers)
    (st : state) (k : string) :
  st_fs (snd (write_command digest decode sys disks image no_verify ans st)) !! k <> st_fs st !! k ->
  ans_confirm ans = Ok true
  /\ exists parent entries n,
       find_system_disk_parent disks = Some parent
       /\ sys_block_entries sys = Ok entries /\ In (Ok n) entries
       /\ k = join "/dev/" n /\ path_eq k parent = false
       /\ starts_with n "loop" = false /\ is_removable sys n = true /\ size_sectors sys n <> 0.
Proof.
  intros Hch. unfold write_command in Hch.
  unfold bind at 1 in Hch.
  destruct (get_removable_devices sys disks) as [devs|e] eqn:Eg; [|cbn in Hch; congruence].
  cbn [lift_any ret] in Hch.
  unfold bind at 1 in Hch.
  destruct (select_device_spec devs (ans_select ans) st) as [Hs1 Hs2].
  destruct (select_device devs (ans_select ans) st) as [[d|e] st1] eqn:Es;
    cbn [snd fst] in Hs1, Hs2; subst st1; [|cbn in Hch; congruence].
  specialize (Hs2 d eq_refl).
  unfold bind at 1 in Hch.
  destruct (ans_confirm ans) as [[]|e] eqn:Ec; cbn [lift_any ret fail negb] in Hch;
    [|cbn in Hch; congruence|cbn in Hch; congruence].
  split; [reflexivity|].
  assert (Hk : k = path d).
  { destruct (decide (k = path d)) as [->|Hne]; [reflexivity|exfalso].
    apply Hch. unfold lift_pipe.
    pose proof (FrameFacts.run_write_keeps digest decode image (path d) (negb no_verify) st k Hne) as H.
    destruct (Write.run digest decode image (path d) (negb no_verify) st) as [[a|e] st2]; exact H. }
  destruct (devices_come_from_probe_entries sys disks devs Eg) as (parent & entries & Hp & He & Hall).
  destruct (Hall d Hs2) as (n & Hin & Hpr).
  destruct (LinuxFacts.probe_some _ _ _ _ _ Hpr) as (Hpath & _ & Hl & Hpe & Hr & Hsz & _).
  exists parent, entries, n. rewrite Hk, <- Hpath. auto 10.
Qed.
End MainFacts.

Module Witnesses.
Import IO Device Linux Write Examples.

Lemma write_padding_progress_witness :
  fst (write_stage "/tmp/img" "/dev/sdb" 700 ex_write_state) = Ok tt /\
  let '(r, st') := write_stage "/tmp/img" "/dev/sdb" 700 ex_write_state in
  exists evs,
    st_trace st' = st_trace ex_write_state ++ evs
    /\ write_trace "/dev/sdb" 700 0 0 evs
    /\ (forall n, In (EvWriteProgress n) evs -> 0 < n <= 700)
    /\ (r = Ok tt -> 0 < 700 -> 700 mod block_size <> 0 ->
        exists pre d,
          evs = pre ++ [EvDeviceWrite "/dev/sdb" (700 - zlen d)
                          (d ++ repeat x00 (Z.to_nat (padded_size (zlen d) - zlen d)));
                        EvWriteProgress 700]
          /\ zlen d = 700 mod BUFFER_SIZE
          /\ padded_size (zlen d) mod block_size = 0
          /\ zlen d < padded_size (zlen d) < zlen d + block_size).
Proof.
  split; [vm_compute; reflexivity|].
  exact (WriteFacts.write_padding_progress ex_write_state "/tmp/img" "/dev/sdb" 700).
Defined.

Lemma read_cancel_deletes_output_witness :
  fst (Read.run "/dev/sdb" "/tmp/out.img" ex_cancel_read_state) = Err ECancelled
  /\ st_fs (snd (Read.run "/dev/sdb" "/tmp/out.img" ex_cancel_read_state)) !! "/tmp/out.img" = None.
Proof.
  apply (ReadFacts.read_cancel_deletes_output ex_cancel_read_state "/dev/sdb" "/tmp/out.img"
           (repeat x00 (Z.to_nat (10 * BUFFER_SIZE))) 3).
  - discriminate.
  - unfold ex_cancel_read_state. cbn [st_fs]. apply lookup_insert_eq.
  - intros d H. unfold ex_cancel_read_state in H. cbn [st_fs] in H.
    rewrite lookup_insert_ne in H by discriminate. rewrite lookup_empty in H. discriminate H.
  - unfold zlen. rewrite repeat_length, Z2Nat.id by (unfold BUFFER_SIZE; lia).
    unfold BUFFER_SIZE. lia.
  - unfold zlen. rewrite repeat_length, Z2Nat.id by (unfold BUFFER_SIZE; lia).
    apply Nat.ltb_lt. vm_compute. reflexivity.
  - intros i Hi. unfold ex_cancel_read_state. cbn [st_running st_polls].
    apply Nat.ltb_lt. exact Hi.
  - reflexivity.
Defined.

Lemma read_zero_size_no_output_witness :
  Read.run "/dev/sdc" "/tmp/out.img" ex_empty_drive_state = (Err EZeroSize, ex_empty_drive_state).
Proof.
  apply ReadFacts.read_zero_size_no_output. vm_compute. reflexivity.
Defined.

Lemma verify_full_streams_witness :
  let '(r, st') := verify_stage (fun b => b) "/tmp/img" "/dev/sdb" 3 ex_verify_state in
  st_fs st' = st_fs ex_verify_state
  /\ (r = Err EMismatch ->
      3 <= zlen [x01; x02; x03] /\ 3 <= zlen [x01; x02; x03; x00]
      /\ take 3 [x01; x02; x03] <> take 3 [x01; x02; x03; x00]
      /\ (0 < 3 -> exists pre, st_trace st' = st_trace ex_verify_state ++ EvVerifyStart 3 :: pre ++ [EvVerifyProgress 3]))
  /\ (3 <= zlen [x01; x02; x03] -> 3 <= zlen [x01; x02; x03; x00] ->
      (forall i : nat, Z.of_nat i * BUFFER_SIZE < 3 -> st_running ex_verify_state (st_polls ex_verify_state + i) = true) ->
      r = if bool_decide (take 3 [x01; x02; x03] = take 3 [x01; x02; x03; x00]) then Ok tt else Err EMismatch).
Proof.
  exact (WriteFacts.verify_full_streams (fun b => b) ex_verify_state "/tmp/img" "/dev/sdb" 3
           (RegFile [x01; x02; x03]) (BlockDev [x01; x02; x03; x00])
           ltac:(reflexivity) ltac:(reflexivity) ltac:(lia)).
Defined.

Lemma discovered_devices_safe_witness :
  exists parent, find_system_disk_parent ex_disks = Some parent /\
  forall dv, In dv [mkDevice "/dev/sdb" "sdb" (size_gb_of 2048) "/media/usb"] ->
    (0 < size_gb dv)%Q /\ path_eq (path dv) parent = false
    /\ path dv = join "/dev/" (name dv)
    /\ Str.starts_with (name dv) "loop" = false
    /\ read_sys_file ex_sys (name dv) "removable" = Ok "1".
Proof.
  apply (LinuxFacts.discovered_devices_safe ex_sys ex_disks).
  - intros n. vm_compute. reflexivity.
  - vm_compute. reflexivity.
Defined.


Lemma parent_device_path_cases_witness :
  get_parent_device_path "/dev/sda1b" = "/dev/sda1b"
  /\ (exists b c d, "/dev/sdab2" = b +:+ String c d /\ Str.is_alphabetic c = true
        /\ Str.all_chars (fun c => negb (Str.is_alphabetic c)) d = true)
  /\ get_parent_device_path "/dev/nvme0n1p1" = "/dev/nvme0n1"
  /\ get_parent_device_path "/dev/nvme0n1" = "/dev/nvme0n1"
  /\ get_parent_device_path "/dev/vda1" = "/dev/vda1".
Proof.
  destruct (LinuxFacts.parent_device_path_cases "/dev/sda1" "b"%char "" "/dev/nvme" "0n1" "1" "/dev/vda1")
    as (Hsd & Hdec & Hp & Hother).
  destruct (Hp (or_introl eq_refl) ltac:(reflexivity)) as [H1 H2].
  split; [exact (Hsd ltac:(reflexivity) ltac:(reflexivity) ltac:(reflexivity))|].
  split; [exact (Hdec "/dev/sdab2" ltac:(reflexivity))|].
  split; [exact H1|]. split; [exact H2|].
  exact (Hother ltac:(reflexivity) ltac:(reflexivity) ltac:(reflexivity)).
Defined.

Lemma decompress_codec_choice_witness :
  (select_codec (ext_of "/data/a.xz") = Some Gzip <-> ext_of "/data/a.xz" = "gz" \/ ext_of "/data/a.xz" = "gzip")
  /\ (select_codec (ext_of "/data/a.xz") = Some Xz <-> ext_of "/data/a.xz" = "xz")
  /\ (select_codec (ext_of "/data/a.xz") = Some Zstd <-> ext_of "/data/a.xz" = "zst" \/ ext_of "/data/a.xz" = "zstd")
  /\ (select_codec (ext_of "/data/a.xz") = None ->
      decompress_image ex_decode "/data/a.xz" ex_image_state = (Ok (mkImage "/data/a.xz" None), ex_image_state))
  /\ (forall c, select_codec (ext_of "/data/a.xz") = Some c -> ex_decode c = ex_decode c ->
      decompress_image ex_decode "/data/a.xz" ex_image_state = decompress_image ex_decode "/data/a.xz" ex_image_state).
Proof.
  apply (DecompressFacts.decompress_codec_choice ex_decode ex_decode "/data/a.xz" ex_image_state (RegFile [x01])).
  vm_compute. reflexivity.
Defined.


End Witnesses.


Module MoreWitnesses.
Import Str IO Device Linux Write Main Examples.

Lemma read_ok_copies_device_witness :
  exists data,
    st_fs ex_copy_state !! "/dev/sdb" = Some (BlockDev data) /\ 0 < zlen data
    /\ (forall i, (i < nchunks (zlen data))%nat ->
                  st_running ex_copy_state (st_polls ex_copy_state + i) = true)
    /\ st_fs (snd (Read.run "/dev/sdb" "/tmp/out.img" ex_copy_state))
       = <["/tmp/out.img" := RegFile data]> (st_fs ex_copy_state)
    /\ st_trace (snd (Read.run "/dev/sdb" "/tmp/out.img" ex_copy_state))
       = st_trace ex_copy_state ++ EvReadStart (zlen data) ::
         map (fun k : nat => EvReadProgress (Z.min (Z.of_nat k * BUFFER_SIZE) (zlen data)))
             (seq 1 (nchunks (zlen data))).
Proof.
  apply (ReadMore.read_ok_copies_device ex_copy_state "/dev/sdb" "/tmp/out.img").
  - discriminate.
  - intros d H. vm_compute in H. discriminate H.
  - vm_compute. reflexivity.
Defined.

Lemma write_plain_image_ok_witness :
  exists st',
    Write.run (fun b => b) ex_decode "/tmp/img" "/dev/sdb" true ex_write_state = (Ok tt, st')
    /\ st_fs st' = <["/dev/sdb" := BlockDev (repeat x01 700
                      ++ repeat x00 (Z.to_nat (padded_size (zlen (repeat x01 700)) - zlen (repeat x01 700)))
                      ++ drop (Z.to_nat (padded_size (zlen (repeat x01 700)))) (repeat x00 2048))]>
                   (st_fs ex_write_state).
Proof.
  apply (WriteMore.write_plain_image_ok (fun b => b) ex_decode ex_write_state "/tmp/img" "/dev/sdb"
           (repeat x01 700) (repeat x00 2048) true).
  - discriminate.
  - reflexivity.
  - reflexivity.
  - vm_compute. reflexivity.
  - vm_compute. discriminate.
  - intros i _. reflexivity.
Defined.

Lemma removable_devices_complete_witness :
  exists devs, get_removable_devices ex_sys ex_disks = Ok devs
    /\ In (mkDevice (join "/dev/" "sdb") "sdb" (size_gb_of (size_sectors ex_sys "sdb"))
                    (find_mount_point ex_disks "sdb")) devs.
Proof.
  apply (LinuxMore.removable_devices_complete ex_sys ex_disks "/dev/sda" [Ok "sda"; Ok "sdb"] "sdb");
    try reflexivity.
  - simpl. right. left. reflexivity.
  - vm_compute. discriminate.
Defined.



Lemma write_run_touches_only_device_witness :
  st_fs (snd (Write.run (fun b => b) ex_decode "/tmp/img" "/dev/sdb" true ex_write_state)) !! "/tmp/img"
  = st_fs ex_write_state !! "/tmp/img".
Proof.
  apply (FrameFacts.write_run_touches_only_device (fun b => b) ex_decode "/tmp/img" "/dev/sdb" true
           ex_write_state "/tmp/img").
  discriminate.
Defined.

Lemma read_run_touches_only_image_witness :
  st_fs (snd (Read.run "/dev/sdb" "/tmp/out.img" ex_copy_state)) !! "/dev/sdb"
  = st_fs ex_copy_state !! "/dev/sdb".
Proof.
  apply (FrameFacts.read_run_touches_only_image "/dev/sdb" "/tmp/out.img" ex_copy_state "/dev/sdb").
  discriminate.
Defined.

Lemma write_command_target_witness :
  ans_confirm (mkAnswers (Ok 0%nat) (Ok true)) = Ok true
  /\ exists parent entries n,
       find_system_disk_parent ex_disks = Some parent
       /\ sys_block_entries ex_sys = Ok entries /\ In (Ok n) entries
       /\ "/dev/sdb" = join "/dev/" n /\ path_eq "/dev/sdb" parent = false
       /\ starts_with n "loop" = false /\ is_removable ex_sys n = true /\ size_sectors ex_sys n <> 0.
Proof.
  apply (MainFacts.write_command_target (fun b => b) ex_decode ex_sys ex_disks "/tmp/img" false
           (mkAnswers (Ok 0%nat) (Ok true)) ex_write_state "/dev/sdb").
  vm_compute. discriminate.
Defined.

End MoreWitnesses.
